(** * The weekly-program text segmenter of [web_api_server.py]

    A shallow embedding of the parsing step of [generate_program]
    (src/web_api_server.py, lines 482-527): the text returned by the model
    server is cut into per-day chunks, first by trying five heading
    patterns with [re.finditer], then by an equal split of the lines.

    A Python [str] is modelled as a list of characters whose code points
    are below 256 (Rocq's [ascii] read as Latin-1).  On that range the
    character classes used by the code ([str.strip] whitespace, the regex
    class [\d], case-insensitive literals) are modelled exactly. *)

From Stdlib Require Import ZArith List Ascii String DecimalString DecimalPos
  Lia Bool.
From stdpp Require Import base option list gmap.
Import ListNotations.

Set Warnings "-clear-no-such-hyp".
Local Open Scope nat_scope.

(** ** Exceptions *)

Inductive exn := ValueError | IndexError | ZeroDivisionError.

Inductive result (A : Type) :=
| Ok (a : A)
| Raise (e : exn).
Arguments Ok {A} a.
Arguments Raise {A} e.

#[global] Instance result_ret : MRet result := fun _ a => Ok a.

#[global] Instance result_bind : MBind result := fun _ _ k r =>
  match r with
  | Ok a => k a
  | Raise e => Raise e
  end.

(** ** Python built-ins used by the parser *)

Module Py.

Abbreviation str := (list ascii).

Definition lit (s : string) : str := list_ascii_of_string s.

Definition LF : ascii := ascii_of_nat 10.

Definition code (c : ascii) : nat := nat_of_ascii c.

(** [str.isspace] on a single character, code points below 256:
    TAB, LF, VT, FF, CR, FS, GS, RS, US, SPACE, NEL and NBSP. *)
Definition isspace (c : ascii) : bool :=
  let n := code c in
  ((9 <=? n) && (n <=? 13)) || ((28 <=? n) && (n <=? 32))
  || (n =? 133) || (n =? 160).

(** Decimal digits (Unicode category Nd) below 256: '0'..'9'. *)
Definition isdecimal (c : ascii) : bool :=
  let n := code c in (48 <=? n) && (n <=? 57).

(** [str.lower] on a single character, code points below 256. *)
Definition lower (c : ascii) : ascii :=
  let n := code c in
  if ((65 <=? n) && (n <=? 90))
     || ((192 <=? n) && (n <=? 222) && negb (n =? 215))
  then ascii_of_nat (n + 32)
  else c.

(** [s.lstrip()], [s.rstrip()], [s.strip()] *)
Fixpoint lstrip (s : str) : str :=
  match s with
  | [] => []
  | c :: s' => if isspace c then lstrip s' else s
  end.

Definition rstrip (s : str) : str := rev (lstrip (rev s)).

Definition strip (s : str) : str := rstrip (lstrip s).

(** [s.split(sep)] for a one-character separator. *)
Fixpoint split (sep : ascii) (s : str) : list str :=
  match s with
  | [] => [[]]
  | c :: s' =>
      if Ascii.eqb c sep then [] :: split sep s'
      else match split sep s' with
           | l :: ls => (c :: l) :: ls
           | [] => [[c]]
           end
  end.

(** [sep.join(l)] *)
Fixpoint join (sep : str) (l : list str) : str :=
  match l with
  | [] => []
  | x :: xs =>
      match xs with
      | [] => x
      | _ :: _ => x ++ sep ++ join sep xs
      end
  end.

(** [l[start:stop]] for non-negative bounds; bounds are clipped to the
    length, and the slice is empty when [stop <= start]. *)
Definition slice {A} (l : list A) (start stop : nat) : list A :=
  take (stop - start) (drop start l).

(** [l[i]] for a non-negative index. *)
Definition getitem {A} (l : list A) (i : nat) : result A :=
  match l !! i with
  | Some x => Ok x
  | None => Raise IndexError
  end.

(** [a // b] on non-negative integers. *)
Definition floordiv (a b : nat) : result nat :=
  match b with
  | 0 => Raise ZeroDivisionError
  | S _ => Ok (a / b)
  end.

(** [sys.int_info.default_max_str_digits]: the number of digits up to
    which [int] converts a decimal string.  The program never calls
    [sys.set_int_max_str_digits], so the default is in force. *)
Definition max_str_digits : nat := 4300.

(** [int(s)] for a string of decimal digits.  Signs, underscores and
    surrounding blanks, which [int] also accepts, raise here: the parser
    only ever passes the text captured by [(\d+)].  A string of more
    than [max_str_digits] digits, leading zeros included, raises
    [ValueError]. *)
Definition digit_value (c : ascii) : Z := Z.of_nat (code c) - 48.

Fixpoint int_digits (acc : Z) (s : str) : result Z :=
  match s with
  | [] => Ok acc
  | c :: s' =>
      if isdecimal c then int_digits (10 * acc + digit_value c) s'
      else Raise ValueError
  end.

Definition int (s : str) : result Z :=
  match s with
  | [] => Raise ValueError
  | _ :: _ =>
      if max_str_digits <? length s then Raise ValueError
      else int_digits 0 s
  end.

(** [str(n)], as used by the f-string [f"Day {day}:\n"].  It is applied
    to the days a loop counts up from 1; [str]'s own limit of
    [max_str_digits] digits lies beyond the 10^4300-th round of such a
    loop, which no run reaches. *)
Definition str_of_int (z : Z) : str :=
  lit (NilZero.string_of_int (Z.to_int z)).

End Py.

(** ** The fragment of [re] used by the parser *)

Module Re.
Import Py.

(** A pattern is a sequence of literal characters around the capture
    group [(\d+)]. *)
Inductive atom :=
| Literal (c : ascii)
| DigitsGroup.

Definition regex := list atom.

Definition literal (s : string) : regex := map Literal (lit s).

(** Compiled form.  Under [re.IGNORECASE] a literal is stored lowered and
    compared with the lowered subject character; for code points below
    256 this is when the two characters are equal up to case. *)
Inductive op :=
| LITERAL (c : ascii)
| LITERAL_IGNORE (lo : ascii)
| REPEAT_DIGITS_GROUP.

Definition compile_atom (ignorecase : bool) (a : atom) : op :=
  match a with
  | Literal c => if ignorecase then LITERAL_IGNORE (lower c) else LITERAL c
  | DigitsGroup => REPEAT_DIGITS_GROUP
  end.

Definition compile (ignorecase : bool) (p : regex) : list op :=
  map (compile_atom ignorecase) p.

(** Length of the longest run of decimal digits at the head of [s]. *)
Fixpoint digit_run (s : str) : nat :=
  match s with
  | [] => 0
  | c :: s' => if isdecimal c then S (digit_run s') else 0
  end.

(** Greedy repetition with backtracking: the rest of the pattern is tried
    after [k] digits, then [k-1], ... down to one digit. The result is the
    number of digits kept and what the rest of the pattern consumed. *)
Fixpoint backtrack {G} (rest : str -> option (nat * G)) (s : str) (k : nat)
  : option (nat * nat) :=
  match k with
  | 0 => None
  | S k' =>
      match rest (drop k s) with
      | Some (len, _) => Some (k, len)
      | None => backtrack rest s k'
      end
  end.

(** Match the compiled pattern at the head of [s]: the length of the
    match and the text of group 1, if the pattern has one. *)
Fixpoint match_here (p : list op) (s : str) : option (nat * option str) :=
  match p with
  | [] => Some (0, None)
  | LITERAL c :: p' =>
      match s with
      | x :: s' =>
          if Ascii.eqb x c then
            match match_here p' s' with
            | Some (len, g) => Some (S len, g)
            | None => None
            end
          else None
      | [] => None
      end
  | LITERAL_IGNORE lo :: p' =>
      match s with
      | x :: s' =>
          if Ascii.eqb (lower x) lo then
            match match_here p' s' with
            | Some (len, g) => Some (S len, g)
            | None => None
            end
          else None
      | [] => None
      end
  | REPEAT_DIGITS_GROUP :: p' =>
      match backtrack (match_here p') s (digit_run s) with
      | Some (k, len) => Some (k + len, Some (take k s))
      | None => None
      end
  end.

(** A match object: [m.start()], [m.end()] and [m.group(1)]. *)
Record Match := mkMatch {
  m_start : nat;
  m_end : nat;
  m_group1 : option str
}.

Definition group1 (m : Match) : result str :=
  match m_group1 m with
  | Some g => Ok g
  | None => Raise IndexError
  end.

(** The scan of [finditer]: [s] is the subject from offset [pos] on and
    [skip] counts the characters still covered by the previous match.
    Matches are found left to right and do not overlap; after an empty
    match the scan moves on by one character. *)
Fixpoint scan (p : list op) (pos skip : nat) (s : str) : list Match :=
  match skip with
  | S k =>
      match s with
      | [] => []
      | _ :: s' => scan p (S pos) k s'
      end
  | 0 =>
      match match_here p s with
      | Some (len, g) =>
          mkMatch pos (pos + len) g ::
          match s with
          | [] => []
          | _ :: s' => scan p (S pos) (pred len) s'
          end
      | None =>
          match s with
          | [] => []
          | _ :: s' => scan p (S pos) 0 s'
          end
      end
  end.

(** [list(re.finditer(pattern, text, flags))] *)
Definition finditer (ignorecase : bool) (pattern : regex) (text : str)
  : list Match :=
  scan (compile ignorecase pattern) 0 0 text.

End Re.

(** ** The parser *)

Import Py Re.

(** [possible_separators] (lines 485-491) *)
Definition possible_separators : list regex :=
  [ literal "Day " ++ [DigitsGroup] ++ literal ":";   (* r'Day (\d+):'  *)
    literal "Day " ++ [DigitsGroup] ++ [Literal LF];  (* r'Day (\d+)\n' *)
    literal "Day " ++ [DigitsGroup];                  (* r'Day (\d+)'   *)
    literal "DAY " ++ [DigitsGroup] ++ literal ":";   (* r'DAY (\d+):'  *)
    literal "DAY " ++ [DigitsGroup] ].                (* r'DAY (\d+)'   *)

(** The body of the inner loop (lines 501-512), for the [i]-th of the
    matches taken from [matches]; [taken] are the matches still to visit. *)
Fixpoint for_matches (weekly_program_text : str) (matches : list Match)
    (i : nat) (taken : list Match) (weekly_program : gmap Z str)
  : result (gmap Z str) :=
  match taken with
  | [] => Ok weekly_program
  | m :: taken' =>
      g ← group1 m;
      day_num ← int g;
      let start_pos := m_start m in
      end_pos ←
        (if i + 1 <? length matches
         then m' ← getitem matches (i + 1); Ok (m_start m')
         else Ok (length weekly_program_text));
      let day_content :=
        strip (slice weekly_program_text start_pos end_pos) in
      for_matches weekly_program_text matches (S i) taken'
        (<[day_num := day_content]> weekly_program)
  end.

(** The loop over the separators (lines 496-515); the boolean is the
    flag [parsed]. *)
Fixpoint for_separators (separators : list regex) (weekly_program_text : str)
    (training_days_per_week : nat) (weekly_program : gmap Z str)
  : result (gmap Z str * bool) :=
  match separators with
  | [] => Ok (weekly_program, false)
  | separator :: separators' =>
      let matches := finditer true separator weekly_program_text in
      if training_days_per_week <=? length matches then
        weekly_program' ←
          for_matches weekly_program_text matches 0
            (take training_days_per_week matches) weekly_program;
        Ok (weekly_program', true)
      else
        for_separators separators' weekly_program_text
          training_days_per_week weekly_program
  end.

(** One round of the equal split (lines 524-527). *)
Definition split_day (lines : list str) (lines_per_day : nat)
    (training_days_per_week : nat) (weekly_program : gmap Z str) (day : nat)
  : gmap Z str :=
  let start_line := (day - 1) * lines_per_day in
  let end_line :=
    if day <? training_days_per_week then day * lines_per_day
    else length lines in
  let day_lines := slice lines start_line end_line in
  <[Z.of_nat day :=
      lit "Day " ++ str_of_int (Z.of_nat day) ++ lit ":" ++ [LF]
      ++ join [LF] day_lines]> weekly_program.

(** The equal split (lines 518-527). *)
Definition divide_equally (weekly_program_text : str)
    (training_days_per_week : nat) (weekly_program : gmap Z str)
  : result (gmap Z str) :=
  let lines := split LF (strip weekly_program_text) in
  q ← floordiv (length lines) training_days_per_week;
  let lines_per_day := Nat.max 1 q in
  Ok (foldl (split_day lines lines_per_day training_days_per_week)
        weekly_program (seq 1 training_days_per_week)).

(** The parsing step with the list of separators as a parameter. *)
Definition segment_with (separators : list regex) (weekly_program_text : str)
    (training_days_per_week : nat) : result (gmap Z str) :=
  r ← for_separators separators weekly_program_text
        training_days_per_week ∅;
  let '(weekly_program, parsed) := r in
  if negb parsed
  then divide_equally weekly_program_text training_days_per_week
         weekly_program
  else Ok weekly_program.

(** The parsing step of [generate_program] (lines 482-527): from the
    generated text and the number of training days to [weekly_program].
    The number of days is a natural number; the mapping is a finite map
    from integers to strings, the insertion order of the Python dict is
    not kept. *)
Definition segment (weekly_program_text : str) (training_days_per_week : nat)
  : result (gmap Z str) :=
  segment_with possible_separators weekly_program_text training_days_per_week.

(** ** Vocabulary of the statements *)

(** A pattern qualifies when it yields at least [n] matches; the selected
    pattern is the first one of the list, in order, that qualifies. *)
Definition qualifies (text : str) (n : nat) (separator : regex) : bool :=
  n <=? length (finditer true separator text).

Definition select (separators : list regex) (text : str) (n : nat)
  : option regex :=
  List.find (qualifies text n) separators.

(** The segmentation by one given pattern: its first [n] matches are
    visited by the inner loop, starting from an empty mapping. *)
Definition segment_by (separator : regex) (text : str) (n : nat)
  : result (gmap Z str) :=
  let matches := finditer true separator text in
  for_matches text matches 0 (take n matches) ∅.

(** The value of a string of decimal digits. *)
Definition decimal_value (s : str) : Z :=
  foldl (fun acc c => (10 * acc + digit_value c)%Z) 0%Z s.

(** The day number written in a heading. *)
Definition day_number (m : Match) : Z :=
  match m_group1 m with
  | Some g => decimal_value g
  | None => 0%Z
  end.

(** Where the span of the [i]-th match of [matches] ends: at the start
    of the following match of the list, or at the end of the text when
    there is none. *)
Definition span_end (text : str) (matches : list Match) (i : nat) : nat :=
  match matches !! (i + 1) with
  | Some m' => m_start m'
  | None => length text
  end.

(** The trimmed span of the [i]-th match. *)
Definition span (text : str) (matches : list Match) (i : nat) (m : Match)
  : str :=
  strip (slice text (m_start m) (span_end text matches i)).

(** The assignments [weekly_program[day_num] = day_content] made for the
    first [n] of [matches], in order; spans run up to the next element of
    [following]. *)
Definition assignments (text : str) (following : list Match) (n : nat)
    (matches : list Match) : list (Z * str) :=
  imap (fun i m => (day_number m, span text following i m)) (take n matches).

(** A mapping filled by a sequence of assignments; a later assignment to
    the same key replaces the earlier one. *)
Definition store (kvs : list (Z * str)) (weekly_program : gmap Z str)
  : gmap Z str :=
  foldl (fun wp kv => <[kv.1 := kv.2]> wp) weekly_program kvs.

(** The heading line synthesized by the equal split. *)
Definition heading (d : nat) : str :=
  lit "Day " ++ str_of_int (Z.of_nat d) ++ lit ":".

(** The lines given to day [d] of [n]: [linesPerDay] lines from index
    [(d-1) * linesPerDay] on, and for the last day all lines from that
    index to the end. *)
Definition lines_of_day (lines : list str) (n d : nat) : list str :=
  let linesPerDay := Nat.max 1 (length lines / n) in
  if d =? n then drop ((d - 1) * linesPerDay) lines
  else take linesPerDay (drop ((d - 1) * linesPerDay) lines).

(** The content of day [d]: the heading line, then the joined lines. *)
Definition day_text (lines : list str) (n d : nat) : str :=
  heading d ++ [LF] ++ join [LF] (lines_of_day lines n d).

(** The assignments made by the equal split of [lines] over [n] days. *)
Definition split_assignments (lines : list str) (n : nat) : list (Z * str) :=
  map (fun d => (Z.of_nat d, day_text lines n d)) (seq 1 n).

(** The mapping [m] holds, for days 1 to [n], a heading line followed by
    the joined lines of a group, and the groups in day order make up
    [lines]. *)
Definition bodies_partition (lines : list str) (n : nat) (m : gmap Z str)
  : Prop :=
  exists bodies : list (list str),
    length bodies = n /\ List.concat bodies = lines /\
    forall d body, bodies !! d = Some body ->
      m !! Z.of_nat (S d) = Some (heading (S d) ++ [LF] ++ join [LF] body).

(** A string without leading and trailing whitespace. *)
Definition trimmed (s : str) : Prop := strip s = s.

(** The assignments made by [segment], by the selected pattern or by the
    equal split. *)
Definition trace (separators : list regex) (text : str) (n : nat)
  : list (Z * str) :=
  match select separators text n with
  | Some separator =>
      let matches := finditer true separator text in
      assignments text matches n matches
  | None => split_assignments (split LF (strip text)) n
  end.

(** A match whose group 1 holds a non-empty string of decimal digits. *)
Definition captures_number (m : Match) : Prop :=
  exists g, m_group1 m = Some g /\ g <> [] /\
            Forall (fun c => isdecimal c = true) g.

(** A heading pattern: compiled with [re.IGNORECASE] it starts with the
    letter d and contains the digits group. *)
Definition heading_pattern (separator : regex) : Prop :=
  (exists p, compile true separator = LITERAL_IGNORE "d" :: p) /\
  In REPEAT_DIGITS_GROUP (compile true separator).

(** A heading whose number has no more digits than [int] converts. *)
Definition within_limit (m : Match) : bool :=
  match m_group1 m with
  | Some g => length g <=? max_str_digits
  | None => true
  end.

(** The headings the inner loop visits: the first [n] matches of the
    selected pattern; none when no pattern qualifies. *)
Definition taken_headings (separators : list regex) (text : str) (n : nat)
  : list Match :=
  match select separators text n with
  | Some separator => take n (finditer true separator text)
  | None => []
  end.

(** No heading the inner loop visits has more digits than [int]
    converts. *)
Definition headings_within_limit (separators : list regex) (text : str)
    (n : nat) : bool :=
  forallb within_limit (taken_headings separators text n).

(** * The rest of the handlers and tools *)

(** ** The answer of the model server ([generate_program] of
       [web_api_server.py], lines 477-533) *)

(** One round of the loop that fills [weekly_program] when the model
    server did not answer with status 200 (lines 531-533). *)
Definition error_day (weekly_program : gmap Z str) (day : nat) : gmap Z str :=
  <[Z.of_nat day :=
      lit "Day " ++ str_of_int (Z.of_nat day)
      ++ lit ": Error generating program - model server unavailable"]>
    weekly_program.

Definition error_program (training_days_per_week : nat) : gmap Z str :=
  foldl error_day ∅ (seq 1 training_days_per_week).

(** The line stored for day [d] in that case. *)
Definition error_text (d : nat) : str :=
  lit "Day " ++ str_of_int (Z.of_nat d)
  ++ lit ": Error generating program - model server unavailable".

(** [weekly_program] as built from the response of the model server:
    [status_code] is [response.status_code] and [weekly_program_text] is
    [response.json()['weekly_program']]. *)
Definition weekly_program_of_response (status_code : Z)
    (weekly_program_text : str) (training_days_per_week : nat)
  : result (gmap Z str) :=
  if (status_code =? 200)%Z
  then segment weekly_program_text training_days_per_week
  else Ok (error_program training_days_per_week).

(** ** Python values, as [json.load] and [request.get_json] give them *)

Set Warnings "-register-all".

Module Dyn.

Inductive exception :=
| TypeError
| KeyError (key : str)
| FileNotFoundError
| JSONDecodeError
| RequestException.

Inductive outcome (A : Type) :=
| Return (a : A)
| Throw (e : exception).
Arguments Return {A} a.
Arguments Throw {A} e.

#[global] Instance outcome_ret : MRet outcome := fun _ a => Return a.

#[global] Instance outcome_bind : MBind outcome := fun _ _ k r =>
  match r with
  | Return a => k a
  | Throw e => Throw e
  end.

(** A [float] is kept as its IEEE 754 binary64 bit pattern; a [dict] as
    the list of its items in insertion order. *)
Inductive value :=
| Null
| Bool (b : bool)
| Int (z : Z)
| Float (bits : Z)
| Str (s : str)
| Arr (elements : list value)
| Obj (items : list (str * value)).

(** [s == t] on strings *)
Fixpoint eqb_str (s t : str) : bool :=
  match s, t with
  | [], [] => true
  | c :: s', d :: t' => Ascii.eqb c d && eqb_str s' t'
  | _, _ => false
  end.

(** [s.startswith(t)] *)
Fixpoint startswith (s t : str) : bool :=
  match t, s with
  | [], _ => true
  | d :: t', c :: s' => Ascii.eqb c d && startswith s' t'
  | _ :: _, [] => false
  end.

(** [t in s] on strings: [t] occurs in [s] *)
Fixpoint occurs (t s : str) : bool :=
  startswith s t ||
  match s with
  | [] => false
  | _ :: s' => occurs t s'
  end.

(** [k in d], [d.get(k)] on the items of a dict *)
Fixpoint dict_get (items : list (str * value)) (k : str) : option value :=
  match items with
  | [] => None
  | (k', v) :: items' => if eqb_str k' k then Some v else dict_get items' k
  end.

Definition dict_has (items : list (str * value)) (k : str) : bool :=
  match dict_get items k with
  | Some _ => true
  | None => false
  end.

(** [d[k] = v]: the value of a key that is there is replaced where it
    stands, a new key goes to the end. *)
Fixpoint dict_set (items : list (str * value)) (k : str) (v : value)
  : list (str * value) :=
  match items with
  | [] => [(k, v)]
  | (k', v') :: items' =>
      if eqb_str k' k then (k', v) :: items'
      else (k', v') :: dict_set items' k v
  end.

(** [field in data] for a string [field] *)
Definition contains (data : value) (field : str) : outcome bool :=
  match data with
  | Obj items => Return (dict_has items field)
  | Arr elements =>
      Return (existsb (fun x => match x with
                                | Str s => eqb_str s field
                                | _ => false
                                end) elements)
  | Str s => Return (occurs field s)
  | Null | Bool _ | Int _ | Float _ => Throw TypeError
  end.

(** [container[k]] for a string [k] *)
Definition getitem (container : value) (k : str) : outcome value :=
  match container with
  | Obj items =>
      match dict_get items k with
      | Some v => Return v
      | None => Throw (KeyError k)
      end
  | _ => Throw TypeError
  end.

(** [container[k] = v] for a string [k]; the result is the container
    after the assignment. *)
Definition setitem (container : value) (k : str) (v : value)
  : outcome value :=
  match container with
  | Obj items => Return (Obj (dict_set items k v))
  | _ => Throw TypeError
  end.

End Dyn.

(** ** [generate_program] of [api_server.py]: one request per day
       (lines 80-106) *)

Module ApiServer.
Import Dyn.

(** What the code reads of a response: [response.status_code] and
    [response.json()], [None] standing for a body that is not JSON. *)
Record Response := mkResponse {
  status_code : Z;
  json : option value
}.

Definition response_json (response : Response) : outcome value :=
  match json response with
  | Some v => Return v
  | None => Throw JSONDecodeError
  end.

Section Server.

(** The model server: from its state, the assessment and the day of
    [session_data] to its next state and the result of [requests.post]. *)
Context {S A : Type}.
Variable post : S -> A -> nat -> S * outcome Response.

(** The loop over the days (lines 82-106). *)
Fixpoint for_days (assessment : A) (days : list nat) (server : S)
    (weekly_program : gmap Z value) : S * outcome (gmap Z value) :=
  match days with
  | [] => (server, Return weekly_program)
  | day :: days' =>
      let '(server', r) := post server assessment day in
      match r with
      | Throw e => (server', Throw e)
      | Return response =>
          if (status_code response =? 200)%Z then
            match session_result ← response_json response;
                  getitem session_result (lit "session") with
            | Throw e => (server', Throw e)
            | Return session =>
                for_days assessment days' server'
                  (<[Z.of_nat day := session]> weekly_program)
            end
          else
            for_days assessment days' server'
              (<[Z.of_nat day :=
                   Str (lit "Error generating session for day "
                        ++ str_of_int (Z.of_nat day))]> weekly_program)
      end
  end.

Definition generate_days (assessment : A) (training_days_per_week : nat)
    (server : S) : S * outcome (gmap Z value) :=
  for_days assessment (seq 1 training_days_per_week) server ∅.

End Server.

(** A server that plays a script: the i-th request gets the i-th answer
    of the list, and a connection error once the list is used up. *)
Definition scripted {A : Type} (answers : list (outcome Response))
    (assessment : A) (day : nat)
  : list (outcome Response) * outcome Response :=
  match answers with
  | [] => ([], Throw RequestException)
  | r :: answers' => (answers', r)
  end.

(** What a usable answer stores for a day. *)
Definition entry (day : nat) (r : outcome Response) : outcome value :=
  response ← r;
  if (status_code response =? 200)%Z then
    session_result ← response_json response;
    getitem session_result (lit "session")
  else
    Return (Str (lit "Error generating session for day "
                 ++ str_of_int (Z.of_nat day))).

End ApiServer.

(** ** [switch_model.py] *)

Module SwitchModel.
Import Dyn.

(** The file [model_config.json]: absent, not JSON, or holding a value. *)
Inductive file :=
| Missing
| Garbage
| Json (config : value).

(** [json.load] of the file opened for reading *)
Definition load (f : file) : outcome value :=
  match f with
  | Missing => Throw FileNotFoundError
  | Garbage => Throw JSONDecodeError
  | Json config => Return config
  end.

Definition model (base_model : string) (max_new_tokens : Z)
    (temperature_bits : Z) : value :=
  Obj [ (lit "base_model", Str (lit base_model));
        (lit "max_new_tokens", Int max_new_tokens);
        (lit "temperature", Float temperature_bits) ].

(** The floats 0.3, 0.5, 0.6 and 0.7 *)
Definition f0_3 : Z := 0x3fd3333333333333.
Definition f0_5 : Z := 0x3fe0000000000000.
Definition f0_6 : Z := 0x3fe3333333333333.
Definition f0_7 : Z := 0x3fe6666666666666.

Definition available_models : list (str * value) :=
  [ (lit "gpt2", model "gpt2" 100 f0_3);
    (lit "gpt2-medium", model "gpt2-medium" 150 f0_5);
    (lit "gpt2-large", model "gpt2-large" 200 f0_6);
    (lit "gpt2-xl", model "gpt2-xl" 250 f0_6);
    (lit "llama2-7b", model "meta-llama/Llama-2-7b-hf" 600 f0_7);
    (lit "mistral-7b", model "mistralai/Mistral-7B-v0.1" 300 f0_7);
    (lit "phi2", model "microsoft/phi-2" 250 f0_6);
    (lit "gemma-2b", model "google/gemma-2b" 250 f0_6);
    (lit "qwen-1.8b", model "Qwen/Qwen1.5-1.8B" 250 f0_6);
    (lit "dialogpt", model "microsoft/DialoGPT-small" 150 f0_6);
    (lit "mobilellm", model "facebook/MobileLLM-R1-950M" 200 f0_7);
    (lit "exaone-2.4b", model "LGAI-EXAONE/EXAONE-3.5-2.4B-Instruct" 300 f0_6) ].

(** The three assignments to [config] (lines 87-89); the nested dict is
    changed in place, so [config] holds it after each assignment. *)
Definition update_config (config model_config : value) : outcome value :=
  base_model ← getitem model_config (lit "base_model");
  config ← setitem config (lit "base_model") base_model;
  max_new_tokens ← getitem model_config (lit "max_new_tokens");
  generation_config ← getitem config (lit "generation_config");
  generation_config ←
    setitem generation_config (lit "max_new_tokens") max_new_tokens;
  config ← setitem config (lit "generation_config") generation_config;
  temperature ← getitem model_config (lit "temperature");
  generation_config ← getitem config (lit "generation_config");
  generation_config ←
    setitem generation_config (lit "temperature") temperature;
  setitem config (lit "generation_config") generation_config.

(** [switch_model(model_name)]: what it returns or raises, and the file
    afterwards. *)
Definition switch_model (model_name : str) (f : file) : outcome bool * file :=
  match load f with
  | Throw e => (Throw e, f)
  | Return config =>
      match dict_get available_models model_name with
      | None => (Return false, f)
      | Some model_config =>
          match update_config config model_config with
          | Throw e => (Throw e, f)
          | Return config' => (Return true, Json config')
          end
      end
  end.


End SwitchModel.

(** ** [backend_integration.py] *)

Module BackendIntegration.
Import Dyn.

(** A reply [jsonify(body), status], or the reply of the [except] branch:
    status 500 with the message [prefix] followed by [str(e)]. *)
Inductive reply :=
| Reply (status : Z) (body : value)
| Failed (prefix : str) (e : exception).

(** The loop over the required fields: the first field that is not in
    [data], if there is one. *)
Fixpoint first_missing (required_fields : list str) (data : value)
  : outcome (option str) :=
  match required_fields with
  | [] => Return None
  | field :: fields =>
      present ← contains data field;
      if negb present then Return (Some field)
      else first_missing fields data
  end.

Definition missing_field (field : str) : reply :=
  Reply 400
    (Obj [(lit "error", Str (lit "Missing required field: " ++ field))]).

(** [submit_program_feedback(program_id)], with [data] what
    [request.get_json()] returns (lines 82-109). *)
Definition submit_program_feedback (program_id : str) (data : value)
  : reply :=
  match first_missing [lit "day"; lit "rating"; lit "difficulty"] data with
  | Throw e => Failed (lit "Feedback submission failed: ") e
  | Return (Some field) => missing_field field
  | Return None =>
      Reply 200
        (Obj [ (lit "status", Str (lit "success"));
               (lit "message",
                Str (lit "Feedback received and will be processed"));
               (lit "program_id", Str program_id);
               (lit "feedback", data) ])
  end.

(** The validation that opens [generate_program] (lines 32-43): the
    reply that ends the request, or [None] when all fields are there. *)
Definition generate_program_required_fields : list str :=
  [ lit "weighted_pullups_max"; lit "weighted_dips_max"; lit "muscle_ups";
    lit "rows_max"; lit "pushups_max"; lit "squats_max";
    lit "training_days_per_week"; lit "mesocycle_week";
    lit "primary_goal" ].

Definition generate_program_validation (data : value) : option reply :=
  match first_missing generate_program_required_fields data with
  | Throw e => Some (Failed (lit "Program generation failed: ") e)
  | Return (Some field) => Some (missing_field field)
  | Return None => None
  end.

End BackendIntegration.

(** ** Vocabulary of the further statements *)

(** The pattern 'Day <N>' without colon or newline. *)
Definition bare_separator : regex := literal "Day " ++ [DigitsGroup].

(** A character other than the letter d, in either case. *)
Definition not_d (x : ascii) : Prop := lower x <> "d"%char.

(** An instruction that can only match characters other than d. *)
Definition avoids_d (o : op) : Prop :=
  match o with
  | LITERAL c => lower c <> "d"%char
  | LITERAL_IGNORE lo => lo <> "d"%char
  | REPEAT_DIGITS_GROUP => True
  end.

(** A compiled heading pattern whose only d is its first letter and
    that has the bare pattern as a prefix. *)
Definition extends_bare (p : list op) : Prop :=
  exists q, p = compile true bare_separator ++ q /\ Forall avoids_d q.

(** The day number a content starts with: the letters d, a, y in either
    case, a blank, and then the value of the longest run of digits, if
    there is at least one digit. *)
Definition leading_day (content : str) : option Z :=
  match content with
  | x1 :: x2 :: x3 :: x4 :: rest =>
      if Ascii.eqb (lower x1) "d" && Ascii.eqb (lower x2) "a"
         && Ascii.eqb (lower x3) "y" && Ascii.eqb x4 " "
      then match digit_run rest with
           | 0 => None
           | k => Some (decimal_value (take k rest))
           end
      else None
  | _ => None
  end.

(** * The model at work *)

Section Examples.

Example strip_blanks :
  strip (lit "  Day 1 " ++ [LF]) = lit "Day 1".
Proof. reflexivity. Qed.

Example split_trailing_newline :
  split LF (lit "a" ++ [LF] ++ lit "b" ++ [LF]) = [lit "a"; lit "b"; []].
Proof. reflexivity. Qed.

Example split_empty : split LF [] = [[]].
Proof. reflexivity. Qed.

Example join_lines : join [LF] [lit "a"; lit "b"] = lit "a" ++ [LF] ++ lit "b".
Proof. reflexivity. Qed.

Example int_12 : int (lit "12") = Ok 12%Z.
Proof. reflexivity. Qed.

Example int_blank : int (lit "1 2") = Raise ValueError.
Proof. reflexivity. Qed.

(** [int('9' * 4300)] is a number, [int('0' * 4301)] raises. *)
Example int_4300_digits : exists z, int (repeat "9"%char 4300) = Ok z.
Proof. eexists. vm_compute. reflexivity. Qed.

Example int_4301_digits : int (repeat "0"%char 4301) = Raise ValueError.
Proof. vm_compute. reflexivity. Qed.

(** [re.finditer(r'Day (\d+)', 'day 12 Day 3:DAY 4 Day x day  5',
    re.IGNORECASE)] has the spans (0, 6), (7, 12) and (13, 18). *)
Example finditer_bare :
  finditer true (literal "Day " ++ [DigitsGroup])
    (lit "day 12 Day 3:DAY 4 Day x day  5")
  = [ mkMatch 0 6 (Some (lit "12"));
      mkMatch 7 12 (Some (lit "3"));
      mkMatch 13 18 (Some (lit "4")) ].
Proof. vm_compute. reflexivity. Qed.

(** Without the flag the capitals do not match. *)
Example finditer_case_sensitive :
  finditer false (literal "Day " ++ [DigitsGroup]) (lit "DAY 1 Day 2")
  = [ mkMatch 6 11 (Some (lit "2")) ].
Proof. vm_compute. reflexivity. Qed.

(** Three headings in order, three days. *)
Example segment_three_days :
  segment (lit "Day 1: pull" ++ [LF] ++ lit "Day 2: push" ++ [LF]
           ++ lit "Day 3: legs") 3
  = Ok (store [ (1%Z, lit "Day 1: pull"); (2%Z, lit "Day 2: push");
                (3%Z, lit "Day 3: legs") ] ∅).
Proof. vm_compute. reflexivity. Qed.

(** A heading with a number of 4301 digits: line 502 raises. *)
Example segment_long_number :
  segment (lit "Day " ++ repeat "1"%char 4301 ++ lit ":") 1
  = Raise ValueError.
Proof. vm_compute. reflexivity. Qed.

(** The empty text and four days: four headings with no body. *)
Example segment_empty_text :
  segment [] 4
  = Ok (store [ (1%Z, lit "Day 1:" ++ [LF]); (2%Z, lit "Day 2:" ++ [LF]);
                (3%Z, lit "Day 3:" ++ [LF]); (4%Z, lit "Day 4:" ++ [LF]) ] ∅).
Proof. vm_compute. reflexivity. Qed.

End Examples.

(** * Facts about the built-ins *)

Section PyFacts.

Lemma lstrip_head (s : str) :
  lstrip s = [] \/ exists c w, lstrip s = c :: w /\ isspace c = false.
Proof.
  induction s as [|c s IH]; simpl; [by left|].
  destruct (isspace c) eqn:E; [done|]. right. by exists c, s.
Qed.

Lemma lstrip_fixed (c : ascii) (w : str) :
  isspace c = false -> lstrip (c :: w) = c :: w.
Proof. intros E. simpl. by rewrite E. Qed.

Lemma lstrip_idemp (s : str) : lstrip (lstrip s) = lstrip s.
Proof.
  destruct (lstrip_head s) as [->|(c & w & -> & E)]; [done|].
  by apply lstrip_fixed.
Qed.

Lemma lstrip_suffix (s : str) : exists u, s = u ++ lstrip s.
Proof.
  induction s as [|c s [u IH]]; simpl; [by exists []|].
  destruct (isspace c).
  - exists (c :: u). simpl. by rewrite <- IH.
  - by exists [].
Qed.

Lemma lstrip_app_nonspace (u w : str) (c : ascii) :
  isspace c = false -> exists v, lstrip (u ++ c :: w) = v ++ c :: w.
Proof.
  intros E. induction u as [|x u IH]; simpl.
  - rewrite E. by exists [].
  - destruct (isspace x); [done|]. by exists (x :: u).
Qed.

Lemma rstrip_keeps_head (c : ascii) (w : str) :
  isspace c = false -> exists v, rstrip (c :: w) = c :: v.
Proof.
  intros E. unfold rstrip. simpl.
  destruct (lstrip_app_nonspace (rev w) [] c E) as [v Hv].
  rewrite Hv, rev_app_distr. simpl. by exists (rev v).
Qed.

Lemma rstrip_idemp (s : str) : rstrip (rstrip s) = rstrip s.
Proof. unfold rstrip. by rewrite rev_involutive, lstrip_idemp. Qed.

Lemma strip_trimmed (s : str) : trimmed (strip s).
Proof.
  unfold trimmed, strip.
  destruct (lstrip_head s) as [->|(c & w & -> & E)]; [done|].
  destruct (rstrip_keeps_head c w E) as [v Hv].
  rewrite Hv, (lstrip_fixed c v E), <- Hv. apply rstrip_idemp.
Qed.

Lemma strip_nonspace_head (c : ascii) (w : str) :
  isspace c = false -> exists v, strip (c :: w) = c :: v.
Proof.
  intros E. unfold strip. rewrite (lstrip_fixed c w E).
  by apply rstrip_keeps_head.
Qed.

Lemma int_digits_value (s : str) (acc : Z) :
  Forall (fun c => isdecimal c = true) s ->
  int_digits acc s
  = Ok (foldl (fun a c => (10 * a + digit_value c)%Z) acc s).
Proof.
  intros H. revert acc. induction H as [|c s Hc _ IH]; intros acc; simpl.
  - done.
  - by rewrite Hc, IH.
Qed.

Lemma int_decimal (s : str) :
  s <> [] -> Forall (fun c => isdecimal c = true) s ->
  length s <= max_str_digits ->
  int s = Ok (decimal_value s).
Proof.
  intros Hne H Hlen. destruct s as [|c s]; [done|].
  unfold int. apply Nat.ltb_ge in Hlen. rewrite Hlen.
  unfold decimal_value. by apply int_digits_value.
Qed.

Lemma int_too_long (s : str) :
  max_str_digits < length s -> int s = Raise ValueError.
Proof.
  intros Hlen. destruct s as [|c s]; [done|].
  unfold int. apply Nat.ltb_lt in Hlen. by rewrite Hlen.
Qed.

Lemma digit_value_range (c : ascii) :
  isdecimal c = true -> (0 <= digit_value c <= 9)%Z.
Proof.
  unfold isdecimal, digit_value. intros H.
  apply andb_prop in H as [H1 H2].
  apply Nat.leb_le in H1, H2. lia.
Qed.

Lemma decimal_fold_nonneg (s : str) (acc : Z) :
  Forall (fun c => isdecimal c = true) s -> (0 <= acc)%Z ->
  (acc <= foldl (fun a c => (10 * a + digit_value c)%Z) acc s)%Z.
Proof.
  intros H. revert acc. induction H as [|c s Hc _ IH]; intros acc Hacc; simpl.
  - lia.
  - apply digit_value_range in Hc.
    etransitivity; [|apply IH]; lia.
Qed.

Lemma decimal_value_nonneg (s : str) :
  Forall (fun c => isdecimal c = true) s -> (0 <= decimal_value s)%Z.
Proof. intros H. by apply decimal_fold_nonneg. Qed.

End PyFacts.

(** * Facts about matching *)

Section ReFacts.

Lemma digit_run_take (s : str) (k : nat) :
  k <= digit_run s ->
  length (take k s) = k /\ Forall (fun c => isdecimal c = true) (take k s).
Proof.
  revert k. induction s as [|c s IH]; intros k Hk; simpl in Hk.
  - assert (k = 0) as -> by lia. by split.
  - destruct k as [|k]; [by split|].
    destruct (isdecimal c) eqn:E; [|lia].
    destruct (IH k) as [Hlen Hall]; [lia|].
    simpl. split; [by rewrite Hlen|by constructor].
Qed.

Lemma backtrack_inv {G} (rest : str -> option (nat * G)) (s : str)
    (k k' len : nat) :
  backtrack rest s k = Some (k', len) ->
  1 <= k' <= k /\ exists g, rest (drop k' s) = Some (len, g).
Proof.
  induction k as [|k IH]; simpl; [done|].
  destruct (rest (drop (S k) s)) as [[len0 g]|] eqn:E.
  - intros [= <- <-]. split; [lia|by exists g].
  - intros H. destruct (IH H) as [? ?]. split; [lia|done].
Qed.

Lemma match_here_length (p : list op) (s : str) (len : nat)
    (g : option str) :
  match_here p s = Some (len, g) -> len <= length s.
Proof.
  revert s len g. induction p as [|o p IH]; intros s len g; simpl.
  - intros [= <- <-]. lia.
  - destruct o.
    + destruct s as [|x s]; [done|]. destruct (Ascii.eqb x c); [|done].
      destruct (match_here p s) as [[l g']|] eqn:E; [|done].
      intros [= <- <-]. apply IH in E. simpl. lia.
    + destruct s as [|x s]; [done|]. destruct (Ascii.eqb (lower x) lo); [|done].
      destruct (match_here p s) as [[l g']|] eqn:E; [|done].
      intros [= <- <-]. apply IH in E. simpl. lia.
    + destruct (backtrack (match_here p) s (digit_run s))
        as [[k l]|] eqn:E; [|done].
      intros [= <- <-]. apply backtrack_inv in E as [Hk [g' Hg']].
      apply IH in Hg'. rewrite length_drop in Hg'.
      destruct (digit_run_take s k) as [Hlen _]; [lia|].
      rewrite length_take in Hlen. lia.
Qed.

(** Whatever group 1 captures is a non-empty string of decimal digits. *)
Lemma match_here_group (p : list op) (s : str) (len : nat) (d : str) :
  match_here p s = Some (len, Some d) ->
  d <> [] /\ Forall (fun c => isdecimal c = true) d.
Proof.
  revert s len. induction p as [|o p IH]; intros s len; simpl; [done|].
  destruct o.
  - destruct s as [|x s]; [done|]. destruct (Ascii.eqb x c); [|done].
    destruct (match_here p s) as [[l g']|] eqn:E; [|done].
    intros [= <- ->]. by eapply IH.
  - destruct s as [|x s]; [done|]. destruct (Ascii.eqb (lower x) lo); [|done].
    destruct (match_here p s) as [[l g']|] eqn:E; [|done].
    intros [= <- ->]. by eapply IH.
  - destruct (backtrack (match_here p) s (digit_run s))
      as [[k l]|] eqn:E; [|done].
    intros [= <- <-]. apply backtrack_inv in E as [Hk _].
    destruct (digit_run_take s k) as [Hlen Hall]; [lia|].
    split; [|done]. intros Hnil. rewrite Hnil in Hlen. simpl in Hlen. lia.
Qed.

(** A pattern that contains the group always captures it. *)
Lemma match_here_has_group (p : list op) (s : str) (len : nat)
    (g : option str) :
  In REPEAT_DIGITS_GROUP p -> match_here p s = Some (len, g) ->
  exists d, g = Some d.
Proof.
  revert s len g. induction p as [|o p IH]; intros s len g; simpl; [done|].
  intros [->|Hin].
  - destruct (backtrack (match_here p) s (digit_run s))
      as [[k l]|]; [|done].
    intros [= <- <-]. by eexists.
  - destruct o.
    + destruct s as [|x s]; [done|]. destruct (Ascii.eqb x c); [|done].
      destruct (match_here p s) as [[l g']|] eqn:E; [|done].
      intros [= <- <-]. by eapply IH.
    + destruct s as [|x s]; [done|]. destruct (Ascii.eqb (lower x) lo); [|done].
      destruct (match_here p s) as [[l g']|] eqn:E; [|done].
      intros [= <- <-]. by eapply IH.
    + destruct (backtrack (match_here p) s (digit_run s))
        as [[k l]|]; [|done].
      intros [= <- <-]. by eexists.
Qed.

(** A pattern that starts with a case-insensitive literal matches only
    where the subject has that letter, in either case. *)
Lemma match_here_first (lo : ascii) (p : list op) (s : str) (len : nat)
    (g : option str) :
  match_here (LITERAL_IGNORE lo :: p) s = Some (len, g) ->
  exists x s', s = x :: s' /\ lower x = lo.
Proof.
  simpl. destruct s as [|x s]; [done|].
  destruct (Ascii.eqb (lower x) lo) eqn:E; [|done].
  intros _. apply Ascii.eqb_eq in E. by exists x, s.
Qed.

(** What [scan] reports at offset [m_start] is a match of the pattern at
    that offset of the text. *)
Lemma scan_valid (p : list op) (text s : str) (pos skip : nat) (m : Match) :
  drop pos text = s -> In m (scan p pos skip s) ->
  exists len, match_here p (drop (m_start m) text) = Some (len, m_group1 m)
              /\ m_end m = m_start m + len.
Proof.
  revert pos skip. induction s as [|x s IH]; intros pos skip Hs.
  - destruct skip; simpl; [|done].
    destruct (match_here p []) as [[len g]|] eqn:E; [|done].
    intros [<-|[]]. simpl. rewrite Hs. by exists len.
  - assert (drop (S pos) text = s) as Hs'.
    { replace (S pos) with (pos + 1) by lia.
      by rewrite <- drop_drop, Hs. }
    destruct skip; simpl.
    + destruct (match_here p (x :: s)) as [[len g]|] eqn:E.
      * intros [<-|Hin]; [|by eapply IH].
        simpl. rewrite Hs. by exists len.
      * by apply IH.
    + by apply IH.
Qed.

Lemma scan_lower_bound (p : list op) (s : str) (pos skip : nat) (m : Match) :
  In m (scan p pos skip s) -> pos + skip <= m_start m.
Proof.
  revert pos skip. induction s as [|x s IH]; intros pos skip.
  - destruct skip; simpl; [|done].
    destruct (match_here p []) as [[len g]|]; [|done].
    intros [<-|[]]. simpl. lia.
  - destruct skip; simpl.
    + destruct (match_here p (x :: s)) as [[len g]|].
      * intros [<-|Hin]; [simpl; lia|]. apply IH in Hin. lia.
      * intros Hin. apply IH in Hin. lia.
    + intros Hin. apply IH in Hin. lia.
Qed.

(** Matches are reported left to right: start offsets strictly increase. *)
Lemma scan_increasing (p : list op) (s : str) (pos skip i : nat)
    (m m' : Match) :
  scan p pos skip s !! i = Some m -> scan p pos skip s !! S i = Some m' ->
  m_start m < m_start m'.
Proof.
  revert pos skip i. induction s as [|x s IH]; intros pos skip i.
  - destruct skip; simpl; [|done].
    destruct (match_here p []) as [[len g]|]; [|done].
    by destruct i.
  - destruct skip; simpl.
    + destruct (match_here p (x :: s)) as [[len g]|].
      * destruct i as [|i]; simpl.
        -- intros [= <-] Hm'. simpl.
           apply list_elem_of_lookup_2, list_elem_of_In,
             scan_lower_bound in Hm'. lia.
        -- apply IH.
      * apply IH.
    + apply IH.
Qed.

End ReFacts.

(** * Facts about the mapping *)

Section StoreFacts.

Lemma store_cons (k : Z) (v : str) (kvs : list (Z * str))
    (wp : gmap Z str) :
  store ((k, v) :: kvs) wp = store kvs (<[k := v]> wp).
Proof. done. Qed.

Lemma store_app (l1 l2 : list (Z * str)) (wp : gmap Z str) :
  store (l1 ++ l2) wp = store l2 (store l1 wp).
Proof. apply foldl_app. Qed.

Lemma store_dom (kvs : list (Z * str)) (wp : gmap Z str) :
  dom (store kvs wp) = list_to_set kvs.*1 ∪ dom wp.
Proof.
  revert wp. induction kvs as [|[k v] kvs IH]; intros wp.
  - simpl. set_solver.
  - rewrite store_cons, IH, dom_insert_L. simpl. set_solver.
Qed.

Lemma store_lookup_notin (kvs : list (Z * str)) (wp : gmap Z str) (k : Z) :
  k ∉ kvs.*1 -> store kvs wp !! k = wp !! k.
Proof.
  revert wp. induction kvs as [|[k' v'] kvs IH]; intros wp Hk; [done|].
  rewrite store_cons, IH by set_solver.
  apply lookup_insert_ne. set_solver.
Qed.

(** The last assignment to a key is the one that stays. *)
Lemma store_lookup_last (l1 l2 : list (Z * str)) (wp : gmap Z str)
    (k : Z) (v : str) :
  k ∉ l2.*1 -> store (l1 ++ (k, v) :: l2) wp !! k = Some v.
Proof.
  intros Hk. rewrite store_app, store_cons, store_lookup_notin by done.
  apply lookup_insert_eq.
Qed.

Lemma store_lookup_inv (kvs : list (Z * str)) (wp : gmap Z str)
    (k : Z) (v : str) :
  store kvs wp !! k = Some v -> (k, v) ∈ kvs \/ wp !! k = Some v.
Proof.
  revert wp. induction kvs as [|[k' v'] kvs IH]; intros wp; [by right|].
  rewrite store_cons. intros H. apply IH in H as [H|H].
  - left. by right.
  - destruct (decide (k' = k)) as [->|Hne].
    + rewrite lookup_insert_eq in H. injection H as ->. left. by left.
    + rewrite lookup_insert_ne in H by done. by right.
Qed.

Lemma size_list_to_set_le (l : list Z) :
  size (list_to_set l : gset Z) <= length l.
Proof.
  induction l as [|x l IH].
  - change (size (∅ : gset Z) <= 0). by rewrite size_empty.
  - rewrite list_to_set_cons, size_union_alt, size_singleton. simpl.
    assert (size (list_to_set l ∖ {[x]} : gset Z)
            <= size (list_to_set l : gset Z)).
    { apply subseteq_size. set_solver. }
    lia.
Qed.

Lemma size_list_to_set_pos (l : list Z) :
  l <> [] -> 1 <= size (list_to_set l : gset Z).
Proof.
  destruct l as [|x l]; [done|]. intros _.
  assert (size (list_to_set (x :: l) : gset Z) <> 0); [|lia].
  apply size_non_empty_iff. intros H.
  assert (x ∈ (list_to_set (x :: l) : gset Z)) by set_solver.
  set_solver.
Qed.

Lemma store_size (kvs : list (Z * str)) :
  size (store kvs ∅) = size (list_to_set kvs.*1 : gset Z).
Proof.
  rewrite <- size_dom, store_dom, dom_empty_L.
  f_equal. set_solver.
Qed.

End StoreFacts.

(** * Facts about the two loops *)

Section LoopFacts.

Lemma lower_d_nonspace (x : ascii) : lower x = "d"%char -> isspace x = false.
Proof.
  destruct x as [[] [] [] [] [] [] [] []]; vm_compute; congruence.
Qed.

Lemma possible_separators_heading : Forall heading_pattern possible_separators.
Proof.
  unfold possible_separators.
  repeat (apply List.Forall_cons;
          [split; [eexists; vm_compute; reflexivity | vm_compute; tauto]|]).
  apply List.Forall_nil.
Qed.

(** What [finditer] returns for a heading pattern. *)
Lemma finditer_heading (separator : regex) (text : str) (m : Match) :
  heading_pattern separator -> m ∈ finditer true separator text ->
  captures_number m /\
  exists x w, drop (m_start m) text = x :: w /\ isspace x = false.
Proof.
  intros [[p Hp] Hin] Hm. apply list_elem_of_In in Hm.
  apply (scan_valid _ text) in Hm as (len & Hlen & _); [|done].
  split.
  - destruct (match_here_has_group _ _ _ _ Hin Hlen) as [d Hd].
    rewrite Hd in Hlen. exists d. split; [done|].
    by eapply match_here_group.
  - rewrite Hp in Hlen.
    apply match_here_first in Hlen as (x & w & Hx & Hlo).
    exists x, w. split; [done|]. by apply lower_d_nonspace.
Qed.

Lemma finditer_increasing (separator : regex) (text : str) (i : nat)
    (m m' : Match) :
  finditer true separator text !! i = Some m ->
  finditer true separator text !! S i = Some m' ->
  m_start m < m_start m'.
Proof. apply scan_increasing. Qed.

(** The span of a heading match starts with the first letter of the
    heading: it is not empty and it is trimmed. *)
Lemma span_heading (separator : regex) (text : str) (i : nat) (m : Match) :
  heading_pattern separator ->
  finditer true separator text !! i = Some m ->
  span text (finditer true separator text) i m <> [] /\
  trimmed (span text (finditer true separator text) i m).
Proof.
  intros Hsep Hm. split; [|apply strip_trimmed].
  destruct (finditer_heading separator text m Hsep) as [_ (x & w & Hx & Hsp)].
  { by eapply list_elem_of_lookup_2. }
  assert (m_start m < span_end text (finditer true separator text) i) as Hlt.
  { unfold span_end. replace (i + 1) with (S i) by lia.
    destruct (finditer true separator text !! S i) as [m'|] eqn:E.
    - by eapply finditer_increasing.
    - apply (f_equal length) in Hx. rewrite length_drop in Hx.
      simpl in Hx. lia. }
  unfold span, slice. rewrite Hx.
  destruct (span_end text (finditer true separator text) i - m_start m)
    as [|k] eqn:E; [lia|].
  simpl. destruct (strip_nonspace_head x (take k w) Hsp) as [v ->]. done.
Qed.

(** The inner loop runs to its end and makes one assignment per match,
    unless [int] refuses the number of one of the matches. *)
Lemma for_matches_store (text : str) (matches taken : list Match) (i : nat)
    (wp : gmap Z str) :
  Forall captures_number taken ->
  for_matches text matches i taken wp
  = if forallb within_limit taken
    then Ok (store (imap (fun j m =>
                            (day_number m, span text matches (i + j) m))
                      taken) wp)
    else Raise ValueError.
Proof.
  intros H. revert i wp.
  induction H as [|m taken (g & Hg & Hne & Hdig) _ IH]; intros i wp; [done|].
  cbn [for_matches forallb imap]. unfold group1, within_limit at 1.
  rewrite Hg. cbn [mbind result_bind].
  destruct (length g <=? max_str_digits) eqn:Hlim.
  2:{ apply Nat.leb_gt in Hlim. by rewrite (int_too_long g Hlim). }
  apply Nat.leb_le in Hlim.
  rewrite (int_decimal g Hne Hdig Hlim). cbn [mbind result_bind andb].
  assert ((if i + 1 <? length matches
           then m' ← getitem matches (i + 1); Ok (m_start m')
           else Ok (length text)) = Ok (span_end text matches i)) as ->.
  { unfold span_end, getitem.
    destruct (i + 1 <? length matches) eqn:E.
    - apply Nat.ltb_lt, lookup_lt_is_Some in E as [m' Hm'].
      by rewrite Hm'.
    - apply Nat.ltb_ge, lookup_ge_None in E. by rewrite E. }
  cbn [mbind result_bind]. rewrite IH.
  destruct (forallb within_limit taken); [|done].
  rewrite store_cons. f_equal. f_equal.
  - apply imap_ext. intros j m' _. simpl.
    by replace (i + S j) with (S (i + j)) by lia.
  - unfold day_number, span. by rewrite Hg, Nat.add_0_r.
Qed.

Lemma segment_by_store (separator : regex) (text : str) (n : nat) :
  heading_pattern separator ->
  segment_by separator text n
  = if forallb within_limit (take n (finditer true separator text))
    then Ok (store (assignments text (finditer true separator text) n
                      (finditer true separator text)) ∅)
    else Raise ValueError.
Proof.
  intros Hsep. unfold segment_by. rewrite for_matches_store; [done|].
  apply Forall_forall. intros m Hm.
  apply (finditer_heading separator text m Hsep).
  apply elem_of_take in Hm as (i & Hi & _).
  by eapply list_elem_of_lookup_2.
Qed.

Lemma for_separators_select (separators : list regex) (text : str) (n : nat)
    (wp : gmap Z str) :
  for_separators separators text n wp
  = match select separators text n with
    | Some separator =>
        wp' ← for_matches text (finditer true separator text) 0
                (take n (finditer true separator text)) wp;
        Ok (wp', true)
    | None => Ok (wp, false)
    end.
Proof.
  induction separators as [|separator separators IH]; [done|].
  simpl. unfold qualifies.
  by destruct (n <=? length (finditer true separator text)).
Qed.

Lemma select_some (separators : list regex) (text : str) (n : nat)
    (separator : regex) :
  select separators text n = Some separator ->
  In separator separators /\ n <= length (finditer true separator text).
Proof.
  intros H. apply find_some in H as [Hin Hq].
  split; [done|]. by apply Nat.leb_le.
Qed.

Lemma select_zero (separators : list regex) (text : str) :
  separators <> [] -> select separators text 0 <> None.
Proof. by destruct separators. Qed.

Lemma split_day_text (lines : list str) (n d : nat) (wp : gmap Z str) :
  1 <= d <= n ->
  split_day lines (Nat.max 1 (length lines / n)) n wp d
  = <[Z.of_nat d := day_text lines n d]> wp.
Proof.
  intros Hd. unfold split_day, day_text, heading, lines_of_day, slice.
  set (lpd := Nat.max 1 (length lines / n)).
  f_equal. rewrite <- !app_assoc. do 4 f_equal.
  destruct (d <? n) eqn:E1.
  - apply Nat.ltb_lt in E1.
    assert ((d =? n) = false) as -> by (apply Nat.eqb_neq; lia).
    f_equal. destruct d as [|d']; [lia|].
    replace (S d' - 1) with d' by lia. clearbody lpd. f_equal. simpl. lia.
  - apply Nat.ltb_ge in E1.
    assert ((d =? n) = true) as -> by (apply Nat.eqb_eq; lia).
    f_equal. apply take_ge. rewrite length_drop. lia.
Qed.

Lemma foldl_split_day (lines : list str) (n : nat) (days : list nat)
    (wp : gmap Z str) :
  Forall (fun d => 1 <= d <= n) days ->
  foldl (split_day lines (Nat.max 1 (length lines / n)) n) wp days
  = store (map (fun d => (Z.of_nat d, day_text lines n d)) days) wp.
Proof.
  intros H. revert wp. induction H as [|d days Hd _ IH]; intros wp; [done|].
  simpl. rewrite split_day_text by done. rewrite IH. done.
Qed.

Lemma divide_equally_store (text : str) (n : nat) (wp : gmap Z str) :
  0 < n ->
  divide_equally text n wp
  = Ok (store (split_assignments (split LF (strip text)) n) wp).
Proof.
  intros Hn. unfold divide_equally.
  assert (forall a, floordiv a n = Ok (a / n)) as ->.
  { intros a. destruct n; [lia|done]. }
  unfold mbind, result_bind. f_equal. apply foldl_split_day.
  apply Forall_forall. intros d Hd. apply elem_of_seq in Hd. lia.
Qed.

(** What the parser returns is the mapping filled by the assignments of
    [trace]; it returns unless [int] refuses the number of a heading the
    inner loop visits, and then it raises [ValueError]. *)
Lemma segment_with_trace (separators : list regex) (text : str) (n : nat) :
  Forall heading_pattern separators -> 0 < n \/ separators <> [] ->
  segment_with separators text n
  = if headings_within_limit separators text n
    then Ok (store (trace separators text n) ∅)
    else Raise ValueError.
Proof.
  intros Hseps Hn.
  unfold segment_with, trace, headings_within_limit, taken_headings.
  rewrite for_separators_select.
  destruct (select separators text n) as [separator|] eqn:E.
  - apply select_some in E as [Hin _].
    assert (heading_pattern separator) as Hsep.
    { eapply Forall_forall in Hseps; [apply Hseps|by apply list_elem_of_In]. }
    pose proof (segment_by_store separator text n Hsep) as H.
    unfold segment_by in H. rewrite H.
    by destruct (forallb within_limit
                   (take n (finditer true separator text))).
  - simpl. apply divide_equally_store.
    destruct Hn as [Hn|Hne]; [done|].
    destruct n; [|lia]. by apply select_zero in E.
Qed.

Lemma segment_outcome (text : str) (n : nat) :
  segment text n
  = if headings_within_limit possible_separators text n
    then Ok (store (trace possible_separators text n) ∅)
    else Raise ValueError.
Proof.
  apply segment_with_trace; [apply possible_separators_heading|by right].
Qed.

Lemma within_limit_selected (text : str) (n : nat) (separator : regex) :
  select possible_separators text n = Some separator ->
  headings_within_limit possible_separators text n
  = forallb within_limit (take n (finditer true separator text)).
Proof.
  intros E. unfold headings_within_limit, taken_headings. by rewrite E.
Qed.

Lemma within_limit_split (text : str) (n : nat) :
  select possible_separators text n = None ->
  headings_within_limit possible_separators text n = true.
Proof.
  intros E. unfold headings_within_limit, taken_headings. by rewrite E.
Qed.

Lemma forallb_false_elem {A} (f : A -> bool) (l : list A) :
  forallb f l = false -> exists x, x ∈ l /\ f x = false.
Proof.
  induction l as [|a l IH]; simpl; [done|].
  destruct (f a) eqn:E.
  - intros H. destruct (IH H) as (x & Hx & Hf). exists x. split; [by right|done].
  - intros _. exists a. split; [by left|done].
Qed.

(** A heading that [int] refuses, when there is one. *)
Lemma beyond_limit_heading (text : str) (n : nat) :
  headings_within_limit possible_separators text n = false ->
  exists separator i m g,
    select possible_separators text n = Some separator /\
    i < n /\ finditer true separator text !! i = Some m /\
    m_group1 m = Some g /\ max_str_digits < length g /\
    int g = Raise ValueError.
Proof.
  unfold headings_within_limit, taken_headings.
  destruct (select possible_separators text n) as [separator|]; [|done].
  intros H. apply forallb_false_elem in H as (m & Hm & Hlim).
  apply elem_of_take in Hm as (i & Hin & Hi).
  unfold within_limit in Hlim.
  destruct (m_group1 m) as [g|] eqn:Hg; [|done].
  assert (max_str_digits < length g) as Hlen.
  { apply Nat.leb_gt. by destruct (length g <=? max_str_digits). }
  exists separator, i, m, g. repeat split; try done.
  by apply int_too_long.
Qed.

Lemma trace_length (separators : list regex) (text : str) (n : nat) :
  length (trace separators text n) = n.
Proof.
  unfold trace. destruct (select separators text n) as [separator|] eqn:E.
  - apply select_some in E as [_ Hn].
    unfold assignments. rewrite length_imap, length_take. lia.
  - unfold split_assignments. by rewrite length_map, length_seq.
Qed.

Lemma day_text_head (lines : list str) (n d : nat) :
  exists w, day_text lines n d = "D"%char :: w.
Proof. unfold day_text, heading. simpl. by eexists. Qed.

End LoopFacts.
Section TraceFacts.

Lemma assignments_lookup (text : str) (ms : list Match) (n i : nat)
    (m : Match) :
  i < n -> ms !! i = Some m ->
  assignments text ms n ms !! i = Some (day_number m, span text ms i m).
Proof.
  intros Hi Hm. unfold assignments.
  by rewrite list_lookup_imap, lookup_take_lt, Hm.
Qed.

Lemma assignments_elem (text : str) (ms : list Match) (n : nat)
    (kv : Z * str) :
  kv ∈ assignments text ms n ms ->
  exists i m, i < n /\ ms !! i = Some m /\
              kv = (day_number m, span text ms i m).
Proof.
  unfold assignments. intros H.
  apply elem_of_lookup_imap in H as (i & m & -> & Hm).
  apply lookup_take_Some in Hm as [Hm Hi]. by exists i, m.
Qed.

Lemma assignments_keys (text : str) (following ms : list Match) (n : nat) :
  (assignments text following n ms).*1 = day_number <$> take n ms.
Proof.
  unfold assignments. rewrite fmap_imap.
  rewrite <- (imap_const day_number). by apply imap_ext.
Qed.

Lemma split_assignments_keys (lines : list str) (n : nat) :
  (split_assignments lines n).*1 = Z.of_nat <$> seq 1 n.
Proof.
  unfold split_assignments. rewrite <- list_fmap_compose.
  by apply list_fmap_ext.
Qed.

Lemma split_assignments_elem (lines : list str) (n : nat) (kv : Z * str) :
  kv ∈ split_assignments lines n ->
  exists d, 1 <= d <= n /\ kv = (Z.of_nat d, day_text lines n d).
Proof.
  unfold split_assignments. intros H.
  apply list_elem_of_fmap in H as (d & -> & Hd).
  apply elem_of_seq in Hd. exists d. split; [lia|done].
Qed.

Lemma NoDup_days (n : nat) : NoDup (Z.of_nat <$> seq 1 n).
Proof.
  apply NoDup_fmap_2; [|apply NoDup_seq].
  intros a b. lia.
Qed.

(** The mapping holds at least one and at most [n] entries. *)
Lemma trace_size (text : str) (n : nat) :
  0 < n -> 1 <= size (store (trace possible_separators text n) ∅) <= n.
Proof.
  intros Hn. rewrite store_size.
  assert (length (trace possible_separators text n).*1 = n) as Hlen.
  { by rewrite length_fmap, trace_length. }
  split.
  - apply size_list_to_set_pos. intros Hnil. rewrite Hnil in Hlen.
    simpl in Hlen. lia.
  - rewrite <- Hlen at 2. apply size_list_to_set_le.
Qed.

Lemma trace_size_NoDup (text : str) (n : nat) :
  NoDup (trace possible_separators text n).*1 ->
  size (store (trace possible_separators text n) ∅) = n.
Proof.
  intros Hnd. rewrite store_size, size_list_to_set by done.
  by rewrite length_fmap, trace_length.
Qed.

Lemma trace_split_NoDup (text : str) (n : nat) :
  select possible_separators text n = None ->
  NoDup (trace possible_separators text n).*1.
Proof.
  intros E. unfold trace. rewrite E, split_assignments_keys.
  apply NoDup_days.
Qed.

(** How many entries the assignments leave: one per day in the equal
    split, one per distinct written number on the pattern path. *)
Lemma trace_size_cases (text : str) (n : nat) :
  match select possible_separators text n with
  | None => size (store (trace possible_separators text n) ∅) = n
  | Some separator =>
      let written := day_number <$> take n (finditer true separator text) in
      size (store (trace possible_separators text n) ∅)
      = size (list_to_set written : gset Z) /\
      (NoDup written -> size (store (trace possible_separators text n) ∅) = n)
  end.
Proof.
  pose proof (trace_size_NoDup text n) as Hnd.
  pose proof (trace_split_NoDup text n) as Hsplit.
  rewrite store_size. rewrite store_size in Hnd. revert Hnd Hsplit.
  unfold trace.
  destruct (select possible_separators text n) as [separator|].
  - rewrite assignments_keys. intros Hnd _. by split.
  - intros Hnd Hsplit. by apply Hnd, Hsplit.
Qed.

(** Every content assigned by the parser starts with a character that
    is not whitespace. *)
Lemma trace_contents (text : str) (n : nat) (kv : Z * str) :
  kv ∈ trace possible_separators text n ->
  kv.2 <> [] /\ lstrip kv.2 = kv.2.
Proof.
  unfold trace.
  destruct (select possible_separators text n) as [separator|] eqn:E.
  - intros H. apply assignments_elem in H as (i & m & Hi & Hm & ->).
    apply select_some in E as [Hin _].
    assert (heading_pattern separator) as Hsep.
    { eapply Forall_forall; [apply possible_separators_heading|].
      by apply list_elem_of_In. }
    destruct (span_heading separator text i m Hsep Hm) as [Hne Htr].
    split; [done|]. simpl. unfold trimmed, strip in Htr.
    rewrite <- Htr at 1.
    set (t := span text (finditer true separator text) i m) in *.
    assert (lstrip (rstrip (lstrip t)) = rstrip (lstrip t)) as Hl.
    { destruct (lstrip_head t) as [->|(c & w & -> & Hc)]; [done|].
      destruct (rstrip_keeps_head c w Hc) as [v ->].
      by apply lstrip_fixed. }
    by rewrite Hl.
  - intros H. apply split_assignments_elem in H as (d & _ & ->). cbn [snd].
    destruct (day_text_head (split LF (strip text)) n d) as [w Hw].
    rewrite Hw. split; [done|]. by apply lstrip_fixed.
Qed.

End TraceFacts.

(** * The claims *)

(** C7 (as stated it fails): a heading whose number has 4301 digits
    makes [int] raise [ValueError], and the parser raises with it; and
    where the parser returns, two taken headings with the same number
    leave one entry for two days. *)
Lemma long_or_repeated_day_number :
  (let text := lit "Day " ++ repeat "1"%char 4301 ++ lit ":" in
   select possible_separators text 1
   = Some (literal "Day " ++ [DigitsGroup] ++ literal ":") /\
   segment text 1 = Raise ValueError /\
   ~ exists m, segment text 1 = Ok m) /\
  (exists m, segment (lit "Day 1: a Day 1: b") 2 = Ok m /\
             size m = 1 /\ size m <> 2).
Proof.
  split.
  - assert (segment (lit "Day " ++ repeat "1"%char 4301 ++ lit ":") 1
            = Raise ValueError) as E by (vm_compute; reflexivity).
    split; [vm_compute; reflexivity|]. split; [done|].
    intros [m Hm]. congruence.
  - eexists. split; [vm_compute; reflexivity|].
    split; vm_compute; congruence.
Qed.

(** C7 (amended): for every text, the empty text included, and every
    positive number of days the parser either returns or raises
    [ValueError]; it raises exactly when a pattern qualifies and one of
    its taken headings has more than 4300 digits, the number of digits
    up to which [int] converts, and never in the equal split.  When it
    returns, all [training_days_per_week] rounds of the loop that fills
    the mapping are completed: the mapping is the one filled by these
    assignments, no content is empty, and there are at least one and at
    most [training_days_per_week] entries, exactly
    [training_days_per_week] in the equal split and whenever the taken
    headings write pairwise distinct numbers, and in general as many as
    there are distinct numbers written in the taken headings. *)
Theorem segment_returns_or_value_error (text : str) (n : nat) :
  0 < n ->
  if headings_within_limit possible_separators text n
  then
    exists m, segment text n = Ok m /\
      m = store (trace possible_separators text n) ∅ /\
      length (trace possible_separators text n) = n /\
      (forall k c, m !! k = Some c -> c <> []) /\
      1 <= size m <= n /\
      match select possible_separators text n with
      | None => size m = n
      | Some separator =>
          let written :=
            day_number <$> take n (finditer true separator text) in
          size m = size (list_to_set written : gset Z) /\
          (NoDup written -> size m = n)
      end
  else
    segment text n = Raise ValueError /\
    exists separator i m g,
      select possible_separators text n = Some separator /\
      i < n /\ finditer true separator text !! i = Some m /\
      m_group1 m = Some g /\ max_str_digits < length g /\
      int g = Raise ValueError.
Proof.
  intros Hn. rewrite segment_outcome.
  destruct (headings_within_limit possible_separators text n) eqn:E.
  - exists (store (trace possible_separators text n) ∅).
    split; [done|]. split; [done|]. split; [apply trace_length|].
    split; [|split; [by apply trace_size|apply trace_size_cases]].
    intros k c Hkc. apply store_lookup_inv in Hkc as [Hkc|Hkc]; [|done].
    by destruct (trace_contents text n (k, c) Hkc).
  - split; [done|]. by apply beyond_limit_heading.
Qed.

Lemma segment_returns_or_value_error_witness :
  (exists m, segment (lit "Day 2: pull Day 1: push") 2 = Ok m /\
             1 <= size m <= 2) /\
  segment (lit "Day " ++ repeat "1"%char 4301) 1 = Raise ValueError.
Proof.
  split.
  - pose proof (segment_returns_or_value_error
                  (lit "Day 2: pull Day 1: push") 2) as H.
    assert (headings_within_limit possible_separators
              (lit "Day 2: pull Day 1: push") 2 = true) as E
      by (vm_compute; reflexivity).
    rewrite E in H. destruct H as (m & Hseg & _ & _ & _ & Hsize & _); [lia|].
    by exists m.
  - pose proof (segment_returns_or_value_error
                  (lit "Day " ++ repeat "1"%char 4301) 1) as H.
    assert (headings_within_limit possible_separators
              (lit "Day " ++ repeat "1"%char 4301) 1 = false) as E
      by (vm_compute; reflexivity).
    rewrite E in H. destruct H as [Hseg _]; [lia|]. exact Hseg.
Defined.

(** C1 (as stated it fails): two headings with the same written number
    among the taken matches leave one entry where two were expected. *)
Lemma repeated_day_number_one_entry :
  exists m, segment (lit "Day 1: a Day 1: b") 2 = Ok m /\
            m !! 1%Z = Some (lit "Day 1: b") /\ size m = 1 /\ size m <> 2.
Proof.
  eexists. split; [vm_compute; reflexivity|].
  split; [|split]; vm_compute; congruence.
Qed.

(** C1 (amended): for every text and every positive number of days,
    unless a taken heading has more than 4300 digits, in which case
    [int] and with it the parser raises [ValueError], the parser returns
    a mapping with at least one and at most [training_days_per_week]
    entries.  In the equal split it has exactly that many.  On the
    pattern path it has as many entries as there are distinct day
    numbers written in the taken headings, hence exactly
    [training_days_per_week] when those numbers are pairwise distinct. *)
Theorem segment_entry_count (text : str) (n : nat) :
  0 < n ->
  if headings_within_limit possible_separators text n
  then
    exists m, segment text n = Ok m /\ 1 <= size m <= n /\
      match select possible_separators text n with
      | None => size m = n
      | Some separator =>
          let written :=
            day_number <$> take n (finditer true separator text) in
          size m = size (list_to_set written : gset Z) /\
          (NoDup written -> size m = n)
      end
  else segment text n = Raise ValueError.
Proof.
  intros Hn. rewrite segment_outcome.
  destruct (headings_within_limit possible_separators text n); [|done].
  exists (store (trace possible_separators text n) ∅).
  split; [done|]. split; [by apply trace_size|apply trace_size_cases].
Qed.

Lemma segment_entry_count_witness :
  exists m, segment (lit "Day 2: pull Day 1: push") 2 = Ok m /\ size m = 2.
Proof.
  pose proof (segment_entry_count (lit "Day 2: pull Day 1: push") 2) as H.
  assert (headings_within_limit possible_separators
            (lit "Day 2: pull Day 1: push") 2 = true) as Elim
    by (vm_compute; reflexivity).
  rewrite Elim in H. destruct H as (m & Hm & _ & H); [lia|].
  exists m. split; [done|].
  assert (select possible_separators (lit "Day 2: pull Day 1: push") 2
          = Some (literal "Day " ++ [DigitsGroup] ++ literal ":")) as E
    by (vm_compute; reflexivity).
  rewrite E in H. destruct H as [_ H]. apply H.
  vm_compute. apply NoDup_cons_2; [|apply NoDup_singleton].
  intros Hin. apply list_elem_of_singleton in Hin. discriminate.
Defined.
Section SelectFacts.

Lemma select_first (separators : list regex) (text : str) (n i : nat)
    (separator : regex) :
  separators !! i = Some separator ->
  n <= length (finditer true separator text) ->
  (forall j separator', j < i -> separators !! j = Some separator' ->
     length (finditer true separator' text) < n) ->
  select separators text n = Some separator.
Proof.
  revert i. induction separators as [|s0 separators IH]; intros i; [done|].
  destruct i as [|i]; simpl.
  - intros [= ->] Hq _. unfold select. simpl. unfold qualifies.
    by apply Nat.leb_le in Hq as ->.
  - intros Hi Hq Hearlier. unfold select. simpl. unfold qualifies at 1.
    assert (length (finditer true s0 text) < n) as H0.
    { apply (Hearlier 0 s0); [lia|done]. }
    apply Nat.leb_gt in H0 as ->.
    apply (IH i Hi Hq). intros j s' Hj Hs'.
    apply (Hearlier (S j) s'); [lia|done].
Qed.

Lemma segment_with_select (separators : list regex) (text : str) (n : nat)
    (separator : regex) :
  select separators text n = Some separator ->
  segment_with separators text n = segment_by separator text n.
Proof.
  intros E. unfold segment_with, segment_by.
  rewrite for_separators_select, E.
  by destruct (for_matches text (finditer true separator text) 0
                 (take n (finditer true separator text)) ∅).
Qed.

(** With a selected pattern the parser makes the assignments of that
    pattern's first [n] matches, unless [int] refuses one of their
    numbers. *)
Lemma selected_pattern_trace (text : str) (n : nat) (separator : regex) :
  select possible_separators text n = Some separator ->
  segment text n
  = (if forallb within_limit (take n (finditer true separator text))
     then Ok (store (assignments text (finditer true separator text) n
                       (finditer true separator text)) ∅)
     else Raise ValueError) /\
  length (assignments text (finditer true separator text) n
            (finditer true separator text)) = n.
Proof.
  intros E.
  pose proof (segment_outcome text n) as Hseg.
  pose proof (trace_length possible_separators text n) as Hlen.
  rewrite (within_limit_selected text n separator E) in Hseg.
  unfold trace in Hseg, Hlen. rewrite E in Hseg, Hlen. done.
Qed.

End SelectFacts.

(** C2: the five patterns 'Day <N>:', 'Day <N>' before a newline,
    'Day <N>', 'DAY <N>:' and 'DAY <N>' are tried in this order, and the
    first of them with at least [training_days_per_week] matches is the
    one used: the result is the segmentation by that pattern, whatever
    the later patterns would match.  In particular, whenever the pattern
    with the colon has enough matches its segmentation is returned, also
    when the bare pattern has enough matches too. *)
Theorem first_sufficient_pattern (text : str) (n : nat) :
  possible_separators
  = [ literal "Day " ++ [DigitsGroup] ++ literal ":";
      literal "Day " ++ [DigitsGroup] ++ [Literal LF];
      literal "Day " ++ [DigitsGroup];
      literal "DAY " ++ [DigitsGroup] ++ literal ":";
      literal "DAY " ++ [DigitsGroup] ] /\
  (forall i separator,
     possible_separators !! i = Some separator ->
     n <= length (finditer true separator text) ->
     (forall j separator', j < i ->
        possible_separators !! j = Some separator' ->
        length (finditer true separator' text) < n) ->
     segment text n = segment_by separator text n) /\
  (n <= length (finditer true (literal "Day " ++ [DigitsGroup] ++ literal ":")
                  text) ->
   segment text n
   = segment_by (literal "Day " ++ [DigitsGroup] ++ literal ":") text n).
Proof.
  split; [done|]. split.
  - intros i separator Hi Hq Hearlier.
    apply segment_with_select. by eapply select_first.
  - intros Hq. apply segment_with_select.
    apply (select_first _ text n 0); [done|done|]. intros j s' Hj. lia.
Qed.

Lemma first_sufficient_pattern_witness :
  let text := lit "Day 1 pull, DAY 2: push, day 3 legs" in
  segment text 3 = segment_by (literal "Day " ++ [DigitsGroup]) text 3 /\
  segment (lit "Day 1: a Day 2: b") 2
  = segment_by (literal "Day " ++ [DigitsGroup] ++ literal ":")
      (lit "Day 1: a Day 2: b") 2.
Proof.
  split.
  - destruct (first_sufficient_pattern
                (lit "Day 1 pull, DAY 2: push, day 3 legs") 3)
      as (_ & H & _).
    apply (H 2).
    + reflexivity.
    + vm_compute. lia.
    + intros j s' Hj. destruct j as [|[|j]]; [| |lia];
        intros [= <-]; vm_compute; lia.
  - destruct (first_sufficient_pattern (lit "Day 1: a Day 2: b") 2)
      as (_ & _ & H).
    apply H. vm_compute. lia.
Defined.
(** C3 (as stated it fails): with three headings and two days asked for,
    the second segment stops where the third heading starts; it does not
    run to the end of the text. *)
Lemma last_taken_segment_stops_at_next_heading :
  let text := lit "Day 1: a Day 2: b Day 3: c" in
  let separator := literal "Day " ++ [DigitsGroup] ++ literal ":" in
  let matches := finditer true separator text in
  select possible_separators text 2 = Some separator /\
  m_start <$> matches = [0; 9; 18] /\
  strip (slice text 9 (length text)) = lit "Day 2: b Day 3: c" /\
  exists m, segment text 2 = Ok m /\
            m !! 2%Z = Some (lit "Day 2: b") /\
            m <> store (assignments text (take 2 matches) 2 matches) ∅.
Proof.
  repeat split; try (vm_compute; reflexivity).
  eexists. split; [vm_compute; reflexivity|].
  split; [vm_compute; reflexivity|].
  intros H. apply (f_equal (fun m : gmap Z str => m !! 2%Z)) in H.
  vm_compute in H. congruence.
Qed.

(** C3 (amended): when a pattern qualifies, its first
    [training_days_per_week] matches are taken in order of appearance;
    the content stored for taken match [i] is the text, trimmed, from
    the start offset of that match up to the start offset of the next
    match of the pattern, taken or not, and up to the end of the text
    when the pattern has no further match.  The mapping filled in this
    way is what the parser returns, unless a taken heading has more than
    4300 digits: then [int] raises [ValueError] and nothing is
    returned. *)
Theorem pattern_segments (text : str) (n : nat) (separator : regex) :
  select possible_separators text n = Some separator ->
  let matches := finditer true separator text in
  segment text n
  = (if forallb within_limit (take n matches)
     then Ok (store (assignments text matches n matches) ∅)
     else Raise ValueError) /\
  length (assignments text matches n matches) = n /\
  forall i m, i < n -> matches !! i = Some m ->
    assignments text matches n matches !! i
    = Some (day_number m,
            strip (slice text (m_start m)
                     match matches !! (i + 1) with
                     | Some m' => m_start m'
                     | None => length text
                     end)).
Proof.
  intros E matches.
  destruct (selected_pattern_trace text n separator E) as [Hseg Hlen].
  split; [done|]. split; [done|].
  intros i m Hi Hm. by apply assignments_lookup.
Qed.

Lemma pattern_segments_witness :
  let text := lit "Day 1: a Day 2: b Day 3: c" in
  let separator := literal "Day " ++ [DigitsGroup] ++ literal ":" in
  segment text 2
  = Ok (store (assignments text (finditer true separator text) 2
                 (finditer true separator text)) ∅).
Proof.
  refine (proj1 (pattern_segments (lit "Day 1: a Day 2: b Day 3: c") 2
                   (literal "Day " ++ [DigitsGroup] ++ literal ":") _)).
  vm_compute. reflexivity.
Defined.
Section SplitFacts.

Lemma store_lookup_NoDup (kvs : list (Z * str)) (wp : gmap Z str)
    (k : Z) (v : str) :
  NoDup kvs.*1 -> (k, v) ∈ kvs -> store kvs wp !! k = Some v.
Proof.
  intros Hnd Hin. apply list_elem_of_split in Hin as (l1 & l2 & ->).
  apply store_lookup_last.
  rewrite fmap_app, fmap_cons in Hnd. apply NoDup_app in Hnd as (_ & _ & Hnd).
  by apply NoDup_cons in Hnd as [? _].
Qed.

Lemma split_assignments_lookup (lines : list str) (n d : nat) :
  1 <= d <= n ->
  store (split_assignments lines n) ∅ !! Z.of_nat d
  = Some (day_text lines n d).
Proof.
  intros Hd. apply store_lookup_NoDup.
  - rewrite split_assignments_keys. apply NoDup_days.
  - unfold split_assignments.
    apply (list_elem_of_fmap_2 (fun d => (Z.of_nat d, day_text lines n d))).
    apply elem_of_seq. lia.
Qed.

Lemma split_assignments_dom (lines : list str) (n : nat) (k : Z) :
  is_Some (store (split_assignments lines n) ∅ !! k) ->
  (1 <= k <= Z.of_nat n)%Z.
Proof.
  intros [v Hv]. apply store_lookup_inv in Hv as [Hv|Hv]; [|done].
  apply split_assignments_elem in Hv as (d & Hd & [= -> _]). lia.
Qed.

(** Consecutive blocks of [lpd] lines make up a prefix of the lines. *)
Lemma blocks_prefix (lines : list str) (lpd k : nat) :
  List.concat (map (fun d => take lpd (drop ((d - 1) * lpd) lines)) (seq 1 k))
  = take (k * lpd) lines.
Proof.
  induction k as [|k IH]; [done|].
  rewrite seq_S, map_app, concat_app, IH. simpl.
  rewrite app_nil_r. replace (k - 0) with k by lia.
  rewrite take_take_drop. f_equal. lia.
Qed.

(** The groups of lines of days 1 to [n] make up the lines. *)
Lemma lines_of_day_partition (lines : list str) (n : nat) :
  0 < n ->
  List.concat (map (lines_of_day lines n) (seq 1 n)) = lines.
Proof.
  intros Hn. destruct n as [|k]; [lia|].
  rewrite seq_S, map_app, concat_app. simpl. rewrite app_nil_r.
  unfold lines_of_day at 2. rewrite Nat.eqb_refl.
  replace (k - 0) with k by lia.
  set (lpd := Nat.max 1 (length lines / S k)).
  rewrite <- (take_drop (k * lpd) lines) at 3. f_equal.
  - rewrite <- blocks_prefix. f_equal.
    apply map_ext_in. intros d Hd. apply in_seq in Hd.
    unfold lines_of_day.
    assert ((d =? S k) = false) as -> by (apply Nat.eqb_neq; lia).
    reflexivity.
  - f_equal. lia.
Qed.

Lemma select_none_pos (text : str) (n : nat) :
  select possible_separators text n = None -> 0 < n.
Proof.
  intros E. destruct n; [|lia]. by apply select_zero in E.
Qed.

Lemma segment_split (text : str) (n : nat) :
  select possible_separators text n = None ->
  segment text n
  = Ok (store (split_assignments (split LF (strip text)) n) ∅).
Proof.
  intros E. rewrite segment_outcome, (within_limit_split text n E).
  unfold trace. by rewrite E.
Qed.

End SplitFacts.

(** C4 (as stated it fails): the lines that are dealt out are those of
    the text without its leading and trailing whitespace, not those of
    the whole text.  Here the whole text has the lines "", "a", "b", and
    day 1 would receive the empty first line; it receives "a". *)
Lemma equal_split_drops_leading_blank_line :
  let text := [LF] ++ lit "a" ++ [LF] ++ lit "b" in
  select possible_separators text 2 = None /\
  split LF text = [[]; lit "a"; lit "b"] /\
  day_text (split LF text) 2 1 = lit "Day 1:" ++ [LF] /\
  exists m, segment text 2 = Ok m /\
            m !! 1%Z = Some (lit "Day 1:" ++ [LF] ++ lit "a") /\
            m !! 1%Z <> Some (day_text (split LF text) 2 1).
Proof.
  repeat split; try (vm_compute; reflexivity).
  eexists. split; [vm_compute; reflexivity|].
  split; [vm_compute; reflexivity|].
  vm_compute. congruence.
Qed.

(** C4 (amended): when no pattern yields [training_days_per_week]
    matches, the text stripped of leading and trailing whitespace is
    split into lines, linesPerDay = max(1, totalLines / days) with
    integer division, day d (from 1 to the number of days) is given the
    lines with index in [(d-1)*linesPerDay, d*linesPerDay), the last day
    all lines from (d-1)*linesPerDay to the end, and the content of day d
    is the heading line 'Day <d>:' followed by the joined lines.  The
    mapping has no other key. *)
Theorem equal_split_days (text : str) (n : nat) :
  select possible_separators text n = None ->
  let lines := split LF (strip text) in
  exists m, segment text n = Ok m /\
    (forall d, 1 <= d <= n -> m !! Z.of_nat d = Some (day_text lines n d)) /\
    (forall k, is_Some (m !! k) -> (1 <= k <= Z.of_nat n)%Z).
Proof.
  intros E lines. eexists. split; [by apply segment_split|]. split.
  - intros d Hd. by apply split_assignments_lookup.
  - apply split_assignments_dom.
Qed.

Lemma equal_split_days_witness :
  let text := [LF] ++ lit "a" ++ [LF] ++ lit "b" in
  exists m, segment text 2 = Ok m /\
            m !! 2%Z = Some (day_text (split LF (strip text)) 2 2).
Proof.
  destruct (equal_split_days ([LF] ++ lit "a" ++ [LF] ++ lit "b") 2)
    as (m & Hm & Hday & _); [vm_compute; reflexivity|].
  exists m. split; [done|]. apply (Hday 2). lia.
Defined.

(** C5 (as stated it fails): the first line of the text below is " a";
    what day 1 holds after its heading is "a", so no grouping of the
    lines of the text gives the contents of the mapping. *)
Lemma equal_split_loses_leading_blank :
  let text := lit " a" ++ [LF] ++ lit "b" in
  select possible_separators text 2 = None /\
  exists m, segment text 2 = Ok m /\
            m !! 1%Z = Some (lit "Day 1:" ++ [LF] ++ lit "a") /\
            ~ bodies_partition (split LF text) 2 m.
Proof.
  split; [vm_compute; reflexivity|].
  eexists. split; [vm_compute; reflexivity|].
  split; [vm_compute; reflexivity|].
  intros (bodies & Hlen & Hcat & Hday).
  destruct bodies as [|b1 bodies]; [done|].
  specialize (Hday 0 b1 eq_refl).
  vm_compute in Hcat. vm_compute in Hday.
  destruct b1 as [|l1 b1].
  - vm_compute in Hday. congruence.
  - simpl in Hcat. injection Hcat as -> _.
    destruct b1; vm_compute in Hday; congruence.
Qed.

(** C5 (amended): in the equal split the groups of lines given to days 1
    to [training_days_per_week], each stored joined after its
    synthesized heading line, make up in day order the lines of the text
    stripped of leading and trailing whitespace: every such line occurs
    exactly once, in the original order. *)
Theorem equal_split_partition (text : str) (n : nat) :
  select possible_separators text n = None ->
  exists m, segment text n = Ok m /\
            bodies_partition (split LF (strip text)) n m.
Proof.
  intros E. eexists. split; [by apply segment_split|].
  exists (map (lines_of_day (split LF (strip text)) n) (seq 1 n)).
  split; [|split].
  - by rewrite length_map, length_seq.
  - apply lines_of_day_partition. by eapply select_none_pos.
  - intros d body Hd.
    apply list_lookup_fmap_Some in Hd as (d' & -> & Hd').
    apply lookup_seq in Hd' as [-> Hd'].
    rewrite split_assignments_lookup by lia. done.
Qed.

Lemma equal_split_partition_witness :
  let text := lit " a" ++ [LF] ++ lit "b" in
  exists m, segment text 2 = Ok m /\
            bodies_partition [lit "a"; lit "b"] 2 m.
Proof.
  exact (equal_split_partition (lit " a" ++ [LF] ++ lit "b") 2 eq_refl).
Defined.
Section PatternFacts.

Lemma assignments_lookup_inv (text : str) (ms : list Match) (n j : nat)
    (kv : Z * str) :
  assignments text ms n ms !! j = Some kv ->
  j < n /\ exists m, ms !! j = Some m /\
                     kv = (day_number m, span text ms j m).
Proof.
  unfold assignments. rewrite list_lookup_imap. intros H.
  apply fmap_Some in H as (m & Hm & ->).
  apply lookup_take_Some in Hm as [Hm Hj]. split; [done|]. by exists m.
Qed.

Lemma selected_heading (text : str) (n : nat) (separator : regex) :
  select possible_separators text n = Some separator ->
  heading_pattern separator.
Proof.
  intros E. apply select_some in E as [Hin _].
  eapply Forall_forall; [apply possible_separators_heading|].
  by apply list_elem_of_In.
Qed.

Lemma captured_int (m : Match) :
  captures_number m -> within_limit m = true ->
  exists g, m_group1 m = Some g /\ int g = Ok (day_number m) /\
            Forall (fun c => isdecimal c = true) g.
Proof.
  intros (g & Hg & Hne & Hdig) Hlim. exists g. split; [done|].
  unfold within_limit in Hlim. rewrite Hg in Hlim. apply Nat.leb_le in Hlim.
  unfold day_number. rewrite Hg. split; [|done]. by apply int_decimal.
Qed.

Lemma taken_within_limit (ms : list Match) (n i : nat) (m : Match) :
  forallb within_limit (take n ms) = true -> i < n -> ms !! i = Some m ->
  within_limit m = true.
Proof.
  intros H Hi Hm. rewrite List.forallb_forall in H. apply H.
  apply list_elem_of_In, elem_of_take. by exists i.
Qed.

(** What a taken heading of the selected pattern gives to [int], and
    what [int] makes of it. *)
Lemma taken_heading_int (text : str) (n i : nat) (separator : regex)
    (m : Match) :
  select possible_separators text n = Some separator ->
  forallb within_limit (take n (finditer true separator text)) = true ->
  i < n -> finditer true separator text !! i = Some m ->
  exists g, m_group1 m = Some g /\ int g = Ok (day_number m) /\
            Forall (fun c => isdecimal c = true) g.
Proof.
  intros E Hlim Hi Hm. apply captured_int.
  - apply (finditer_heading separator text m (selected_heading text n _ E)).
    by eapply list_elem_of_lookup_2.
  - by eapply taken_within_limit.
Qed.

(** An entry of a filled mapping comes from the last assignment to its
    key. *)
Lemma store_lookup_last_inv (kvs : list (Z * str)) (wp : gmap Z str)
    (k : Z) (v : str) :
  store kvs wp !! k = Some v ->
  (exists l1 l2, kvs = l1 ++ (k, v) :: l2 /\ k ∉ l2.*1) \/
  (wp !! k = Some v /\ k ∉ kvs.*1).
Proof.
  revert wp. induction kvs as [|[k' v'] kvs IH]; intros wp.
  - intros H. right. split; [done|]. set_solver.
  - rewrite store_cons. intros H.
    apply IH in H as [(l1 & l2 & -> & Hl2)|[H Hnot]].
    + left. by exists ((k', v') :: l1), l2.
    + destruct (decide (k' = k)) as [->|Hne].
      * rewrite lookup_insert_eq in H. injection H as ->.
        left. by exists [], kvs.
      * rewrite lookup_insert_ne in H by done.
        right. split; [done|]. set_solver.
Qed.

Lemma digit_value_zero (c : ascii) :
  digit_value c = 0%Z <-> c = "0"%char.
Proof.
  unfold digit_value, code. split.
  - intros H. assert (nat_of_ascii c = 48) as H' by lia.
    rewrite <- (ascii_nat_embedding c), H'. reflexivity.
  - by intros ->.
Qed.

Lemma decimal_fold_zero (s : str) (acc : Z) :
  Forall (fun c => isdecimal c = true) s -> (0 <= acc)%Z ->
  foldl (fun a c => (10 * a + digit_value c)%Z) acc s = 0%Z
  <-> acc = 0%Z /\ Forall (fun c => c = "0"%char) s.
Proof.
  intros H. revert acc. induction H as [|c s Hc _ IH]; intros acc Hacc; simpl.
  - split; [by intros ->|by intros [-> _]].
  - pose proof (digit_value_range c Hc) as Hr.
    rewrite IH by lia. rewrite Forall_cons, <- digit_value_zero.
    split; [intros [? ?]|intros (? & ? & ?)]; repeat split; try done; lia.
Qed.

Lemma decimal_value_zero (s : str) :
  Forall (fun c => isdecimal c = true) s ->
  decimal_value s = 0%Z <-> Forall (fun c => c = "0"%char) s.
Proof.
  intros H. unfold decimal_value. rewrite decimal_fold_zero by done.
  tauto.
Qed.

End PatternFacts.

(** C6 (as stated it fails): with the headings 'Day 2', 'Day 1', 'Day 2'
    and three days, the first heading met with the number 2 is followed
    by 'x', and entry 2 holds the content of the last one, 'Day 2: z'. *)
Lemma later_heading_replaces_first :
  let text := lit "Day 2: x Day 1: y Day 2: z" in
  let separator := literal "Day " ++ [DigitsGroup] ++ literal ":" in
  let matches := finditer true separator text in
  select possible_separators text 3 = Some separator /\
  matches = [ mkMatch 0 6 (Some (lit "2")); mkMatch 9 15 (Some (lit "1"));
              mkMatch 18 24 (Some (lit "2")) ] /\
  span text matches 0 (mkMatch 0 6 (Some (lit "2"))) = lit "Day 2: x" /\
  exists m, segment text 3 = Ok m /\
            m !! 2%Z = Some (lit "Day 2: z") /\
            m !! 2%Z <> Some (lit "Day 2: x").
Proof.
  repeat split; try (vm_compute; reflexivity).
  eexists. split; [vm_compute; reflexivity|].
  split; [vm_compute; reflexivity|].
  vm_compute. congruence.
Qed.

(** C6 (amended): on the pattern path every entry of the returned
    mapping is keyed by the integer parsed from the digits of its own
    heading, whatever the position of that heading among the matches,
    and it holds the content that follows the last taken heading with
    that number: a taken heading whose number is not written again in a
    later taken heading has its content under that number.  So if
    'Day 2' comes before 'Day 1' and no further 'Day 2' is taken,
    entry 2 holds the content that follows the 'Day 2' heading.  This is
    what the parser returns unless a taken heading has more than 4300
    digits, where [int] raises [ValueError]. *)
Theorem key_is_written_number (text : str) (n : nat) (separator : regex) :
  select possible_separators text n = Some separator ->
  let matches := finditer true separator text in
  if forallb within_limit (take n matches)
  then
    exists wp, segment text n = Ok wp /\
      (forall k c, wp !! k = Some c ->
         exists i m g, i < n /\ matches !! i = Some m /\
                       m_group1 m = Some g /\ int g = Ok k /\
                       c = span text matches i m /\
                       forall j m', i < j < n -> matches !! j = Some m' ->
                         day_number m' <> k) /\
      (forall i m, i < n -> matches !! i = Some m ->
         (forall j m', i < j < n -> matches !! j = Some m' ->
            day_number m' <> day_number m) ->
         exists g, m_group1 m = Some g /\ int g = Ok (day_number m) /\
                   wp !! day_number m = Some (span text matches i m))
  else segment text n = Raise ValueError.
Proof.
  intros E matches. subst matches.
  destruct (selected_pattern_trace text n separator E) as [Hseg Hlen].
  destruct (forallb within_limit (take n (finditer true separator text)))
    eqn:Hlim; [|done].
  eexists. split; [apply Hseg|]. split.
  - intros k c Hkc.
    apply store_lookup_last_inv in Hkc as [(l1 & l2 & Hkvs & Hl2)|[Hkc _]];
      [|done].
    assert (assignments text (finditer true separator text) n
              (finditer true separator text) !! length l1 = Some (k, c))
      as Hi.
    { rewrite Hkvs. by apply list_lookup_middle. }
    apply assignments_lookup_inv in Hi as (Hi & m & Hm & [= -> ->]).
    destruct (taken_heading_int text n (length l1) separator m E Hlim Hi Hm)
      as (g & Hg & Hint & _).
    exists (length l1), m, g. repeat split; try done.
    intros j m' Hj Hm' Heq. apply Hl2. rewrite <- Heq.
    apply list_elem_of_fmap.
    exists (day_number m', span text (finditer true separator text) j m').
    split; [done|].
    apply (list_elem_of_lookup_2 _ (j - S (length l1))).
    pose proof (assignments_lookup text _ n j m' (proj2 Hj) Hm') as Hj'.
    rewrite Hkvs in Hj'.
    rewrite lookup_app_r in Hj' by lia.
    replace (j - length l1) with (S (j - S (length l1))) in Hj' by lia.
    exact Hj'.
  - intros i m Hi Hm Hlater.
    destruct (taken_heading_int text n i separator m E Hlim Hi Hm)
      as (g & Hg & Hint & _).
    exists g. split; [done|]. split; [done|].
    pose proof (assignments_lookup text _ n i m Hi Hm) as Hi'.
    rewrite <- (take_drop_middle _ _ _ Hi'). apply store_lookup_last.
    intros Hin. apply list_elem_of_fmap in Hin as (kv & Hk & Hkv).
    apply list_elem_of_lookup in Hkv as (j & Hj).
    rewrite lookup_drop in Hj.
    apply assignments_lookup_inv in Hj as (Hjn & m' & Hm' & ->).
    simpl in Hk. symmetry in Hk. revert Hk.
    apply (Hlater (S i + j) m'); [lia|done].
Qed.

Lemma key_is_written_number_witness :
  let text := lit "Day 2: pull Day 1: push" in
  exists wp, segment text 2 = Ok wp /\
             wp !! 2%Z = Some (lit "Day 2: pull") /\
             wp !! 1%Z = Some (lit "Day 1: push").
Proof.
  pose proof (key_is_written_number (lit "Day 2: pull Day 1: push") 2
                (literal "Day " ++ [DigitsGroup] ++ literal ":")) as H0.
  cbv zeta in H0.
  assert (forallb within_limit
            (take 2 (finditer true
                       (literal "Day " ++ [DigitsGroup] ++ literal ":")
                       (lit "Day 2: pull Day 1: push"))) = true) as Elim
    by (vm_compute; reflexivity).
  rewrite Elim in H0.
  destruct H0 as (wp & Hwp & _ & H); [vm_compute; reflexivity|].
  exists wp. split; [done|]. split.
  - destruct (H 0 (mkMatch 0 6 (Some (lit "2")))) as (g & _ & _ & Hg).
    + lia.
    + vm_compute. reflexivity.
    + intros j m' Hj Hm'. assert (j = 1) as -> by lia.
      vm_compute in Hm'. injection Hm' as <-. vm_compute. congruence.
    + exact Hg.
  - destruct (H 1 (mkMatch 12 18 (Some (lit "1")))) as (g & _ & _ & Hg).
    + lia.
    + vm_compute. reflexivity.
    + intros j m' Hj. lia.
    + exact Hg.
Defined.

(** C8 (as stated it fails): for the empty text the equal split stores
    the heading line with its newline and nothing after it, a content
    that ends in whitespace. *)
Lemma equal_split_content_ends_in_newline :
  exists m, segment [] 1 = Ok m /\
            m !! 1%Z = Some (lit "Day 1:" ++ [LF]) /\
            strip (lit "Day 1:" ++ [LF]) = lit "Day 1:" /\
            ~ trimmed (lit "Day 1:" ++ [LF]).
Proof.
  eexists. split; [vm_compute; reflexivity|].
  split; [vm_compute; reflexivity|].
  split; [vm_compute; reflexivity|].
  unfold trimmed. vm_compute. congruence.
Qed.

(** C8 (amended): unless a taken heading has more than 4300 digits,
    in which case [int] and with it the parser raises [ValueError], the
    parser returns a mapping whose every content is non-empty and has no
    leading whitespace.  On the pattern path the content is trimmed, it
    equals its own whitespace-trimmed form; in the equal split it is a
    heading line 'Day <d>:', a newline and the joined lines of the day,
    and nothing is said about whitespace at its end. *)
Theorem contents_nonempty (text : str) (n : nat) :
  if headings_within_limit possible_separators text n
  then
    exists m, segment text n = Ok m /\
      forall k c, m !! k = Some c ->
        c <> [] /\ lstrip c = c /\
        match select possible_separators text n with
        | Some _ => trimmed c
        | None =>
            exists d,
              c = heading d ++ [LF]
                  ++ join [LF] (lines_of_day (split LF (strip text)) n d)
        end
  else segment text n = Raise ValueError.
Proof.
  rewrite segment_outcome.
  destruct (headings_within_limit possible_separators text n); [|done].
  eexists. split; [done|].
  intros k c Hkc. apply store_lookup_inv in Hkc as [Hkc|Hkc]; [|done].
  destruct (trace_contents text n (k, c) Hkc) as [Hne Hl].
  split; [done|]. split; [done|].
  revert Hkc. unfold trace.
  destruct (select possible_separators text n) as [separator|].
  - intros Hkc. apply assignments_elem in Hkc as (i & m & _ & _ & [= _ ->]).
    apply strip_trimmed.
  - intros Hkc. apply split_assignments_elem in Hkc as (d & _ & [= _ ->]).
    by exists d.
Qed.

Lemma contents_nonempty_witness :
  exists m, segment (lit "Day 2: pull  Day 1: push ") 2 = Ok m /\
    forall k c, m !! k = Some c -> c <> [] /\ lstrip c = c /\ trimmed c.
Proof.
  destruct (contents_nonempty (lit "Day 2: pull  Day 1: push ") 2)
    as (m & Hm & H).
  exists m. split; [done|]. intros k c Hkc.
  exact (H k c Hkc).
Defined.

(** C9 (as stated it fails): a heading 'Day 0:' gives the key 0. *)
Lemma day_zero_key :
  exists m, segment (lit "Day 0: rest") 1 = Ok m /\
            m !! 0%Z = Some (lit "Day 0: rest") /\
            ~ (forall k, is_Some (m !! k) -> (1 <= k)%Z).
Proof.
  eexists. split; [vm_compute; reflexivity|].
  split; [vm_compute; reflexivity|].
  intros H. specialize (H 0%Z). 
  assert (1 <= 0)%Z; [|lia]. apply H. vm_compute. by eexists.
Qed.

(** C9 (amended): unless a taken heading has more than 4300 digits, in
    which case [int] and with it the parser raises [ValueError], the
    parser returns a mapping whose every key is a non-negative integer.
    In the equal split the keys are the days 1 to
    [training_days_per_week].  On the pattern path a key is the value of
    the digits of a taken heading; it is at least 1 unless these digits
    are all zeros, in which case it is 0. *)
Theorem keys_are_written_numbers (text : str) (n : nat) :
  if headings_within_limit possible_separators text n
  then
    exists m, segment text n = Ok m /\
      forall k, is_Some (m !! k) ->
        (0 <= k)%Z /\
        match select possible_separators text n with
        | None => (1 <= k <= Z.of_nat n)%Z
        | Some separator =>
            exists i mt g,
              i < n /\ finditer true separator text !! i = Some mt /\
              m_group1 mt = Some g /\ int g = Ok k /\
              (k = 0%Z <-> Forall (fun c => c = "0"%char) g)
        end
  else segment text n = Raise ValueError.
Proof.
  rewrite segment_outcome.
  destruct (headings_within_limit possible_separators text n) eqn:Hlim;
    [|done].
  eexists. split; [done|].
  intros k [c Hkc]. apply store_lookup_inv in Hkc as [Hkc|Hkc]; [|done].
  revert Hkc. unfold trace.
  destruct (select possible_separators text n) as [separator|] eqn:E.
  - intros Hkc. apply assignments_elem in Hkc as (i & m & Hi & Hm & [= -> _]).
    rewrite (within_limit_selected text n separator E) in Hlim.
    destruct (taken_heading_int text n i separator m E Hlim Hi Hm)
      as (g & Hg & Hint & Hdig).
    assert (day_number m = decimal_value g) as Hval.
    { unfold day_number. by rewrite Hg. }
    split.
    + rewrite Hval. by apply decimal_value_nonneg.
    + exists i, m, g. repeat split; try done.
      * rewrite Hval. by apply decimal_value_zero.
      * rewrite Hval. by apply decimal_value_zero.
  - intros Hkc. apply split_assignments_elem in Hkc as (d & Hd & [= -> _]).
    lia.
Qed.

Lemma keys_are_written_numbers_witness :
  exists m, segment (lit "Day 0: rest") 1 = Ok m /\
    forall k, is_Some (m !! k) -> (0 <= k)%Z.
Proof.
  destruct (keys_are_written_numbers (lit "Day 0: rest") 1) as (m & Hm & H).
  exists m. split; [done|]. intros k Hk. exact (proj1 (H k Hk)).
Defined.

(** C10: the two patterns in capitals are dead.  As matching ignores
    case, 'DAY <N>:' has in every text the matches of 'Day <N>:', at the
    same offsets, and 'DAY <N>' those of 'Day <N>'; so the selected
    pattern is always one of the first three, and the parser with the
    first three patterns alone gives the result of the parser with all
    five. *)
Theorem capital_patterns_dead (text : str) (n : nat) :
  finditer true (literal "DAY " ++ [DigitsGroup] ++ literal ":") text
  = finditer true (literal "Day " ++ [DigitsGroup] ++ literal ":") text /\
  finditer true (literal "DAY " ++ [DigitsGroup]) text
  = finditer true (literal "Day " ++ [DigitsGroup]) text /\
  select possible_separators text n
  = select (take 3 possible_separators) text n /\
  segment_with (take 3 possible_separators) text n = segment text n.
Proof.
  assert (finditer true (literal "DAY " ++ [DigitsGroup] ++ literal ":") text
          = finditer true (literal "Day " ++ [DigitsGroup] ++ literal ":")
              text) as H4 by reflexivity.
  assert (finditer true (literal "DAY " ++ [DigitsGroup]) text
          = finditer true (literal "Day " ++ [DigitsGroup]) text)
    as H5 by reflexivity.
  assert (select possible_separators text n
          = select (take 3 possible_separators) text n) as Hsel.
  { unfold select, possible_separators. cbn [take List.find].
    unfold qualifies. rewrite H4, H5.
    destruct (n <=? length (finditer true
                (literal "Day " ++ [DigitsGroup] ++ literal ":") text));
      [done|].
    destruct (n <=? length (finditer true
                (literal "Day " ++ [DigitsGroup] ++ [Literal LF]) text));
      [done|].
    by destruct (n <=? length (finditer true
                   (literal "Day " ++ [DigitsGroup]) text)). }
  repeat split; try done.
  unfold segment, segment_with.
  by rewrite !for_separators_select, Hsel.
Qed.
(** * The answer of the model server *)

Section ResponseFacts.

Lemma rstrip_fixed (s : str) (e : ascii) :
  isspace e = false -> rstrip (s ++ [e]) = s ++ [e].
Proof.
  intros He. unfold rstrip. rewrite rev_app_distr.
  change (rev [e] ++ rev s) with (e :: rev s).
  rewrite (lstrip_fixed e _ He). simpl. by rewrite rev_involutive.
Qed.

Lemma trimmed_ends (c e : ascii) (w : str) :
  isspace c = false -> isspace e = false -> trimmed (c :: w ++ [e]).
Proof.
  intros Hc He. unfold trimmed, strip.
  rewrite (lstrip_fixed c _ Hc).
  change (c :: w ++ [e]) with ((c :: w) ++ [e]).
  by apply rstrip_fixed.
Qed.

Lemma error_program_store (days : list nat) (wp : gmap Z str) :
  foldl error_day wp days
  = store (map (fun d => (Z.of_nat d, error_text d)) days) wp.
Proof.
  revert wp. induction days as [|d days IH]; intros wp; [done|].
  simpl. by rewrite IH.
Qed.

Lemma error_text_trimmed (d : nat) : trimmed (error_text d).
Proof.
  assert (error_text d
          = "D"%char
            :: (lit "ay " ++ str_of_int (Z.of_nat d)
                ++ lit ": Error generating program - model server unavailabl")
            ++ ["e"%char]) as ->.
  { unfold error_text. simpl. by rewrite <- app_assoc. }
  by apply trimmed_ends.
Qed.

Lemma error_assignments_keys (n : nat) :
  (map (fun d => (Z.of_nat d, error_text d)) (seq 1 n)).*1
  = Z.of_nat <$> seq 1 n.
Proof.
  rewrite <- list_fmap_compose. by apply list_fmap_ext.
Qed.

End ResponseFacts.

Section ResponseFacts2.

Lemma error_program_facts (n : nat) :
  size (error_program n) = n /\
  (forall d, 1 <= d <= n ->
     error_program n !! Z.of_nat d = Some (error_text d)) /\
  (forall k c, error_program n !! k = Some c ->
     (1 <= k <= Z.of_nat n)%Z /\ c <> [] /\ trimmed c).
Proof.
  unfold error_program. rewrite error_program_store.
  split; [|split].
  - rewrite store_size, error_assignments_keys.
    rewrite size_list_to_set by apply NoDup_days.
    by rewrite length_fmap, length_seq.
  - intros d Hd. apply store_lookup_NoDup.
    + rewrite error_assignments_keys. apply NoDup_days.
    + apply (list_elem_of_fmap_2 (fun d => (Z.of_nat d, error_text d))).
      apply elem_of_seq. lia.
  - intros k c Hkc. apply store_lookup_inv in Hkc as [Hkc|Hkc]; [|done].
    apply list_elem_of_fmap in Hkc as (d & [= -> ->] & Hd).
    apply elem_of_seq in Hd. split; [lia|].
    split; [|apply error_text_trimmed]. by unfold error_text.
Qed.

Lemma trimmed_lstrip (c : str) : trimmed c -> lstrip c = c.
Proof.
  intros Htr. destruct c as [|x w]; [done|].
  unfold trimmed, strip in Htr.
  destruct (isspace x) eqn:Hx; [|by apply lstrip_fixed].
  exfalso. pose proof (lstrip_head (x :: w)) as [Hl|(y & v & Hl & Hy)].
  - rewrite Hl in Htr. done.
  - rewrite Hl in Htr. destruct (rstrip_keeps_head y v Hy) as [u Hu].
    rewrite Hu in Htr. injection Htr as -> _. congruence.
Qed.

End ResponseFacts2.

(** X1: when the model server answers with a status other than 200, the
    program has exactly [training_days_per_week] entries, the days 1 to
    [training_days_per_week], each holding the line 'Day <d>: Error
    generating program - model server unavailable', whatever the body
    of the answer; every content is non-empty and trimmed. *)
Theorem error_program_days (status_code : Z) (text : str) (n : nat) :
  status_code <> 200%Z ->
  exists m, weekly_program_of_response status_code text n = Ok m /\
    size m = n /\
    (forall d, 1 <= d <= n -> m !! Z.of_nat d = Some (error_text d)) /\
    (forall k c, m !! k = Some c ->
       (1 <= k <= Z.of_nat n)%Z /\ c <> [] /\ trimmed c).
Proof.
  intros Hs. unfold weekly_program_of_response.
  apply Z.eqb_neq in Hs as ->. eexists. split; [done|].
  apply error_program_facts.
Qed.

Lemma error_program_days_witness :
  exists m, weekly_program_of_response 503 (lit "Day 1: pull") 2 = Ok m /\
            size m = 2 /\
            m !! 2%Z = Some (lit "Day 2: Error generating program - model server unavailable").
Proof.
  destruct (error_program_days 503 (lit "Day 1: pull") 2)
    as (m & Hm & Hsize & Hday & _); [lia|].
  exists m. split; [done|]. split; [done|]. apply (Hday 2). lia.
Defined.

(** X2: given the status of the answer and the text it carries, for
    every positive number of days the handler either has a program of
    at least one and at most [training_days_per_week] days, no content
    of which is empty or starts with whitespace, or it raises
    [ValueError]; it raises exactly when the status is 200 and a taken
    heading of the text has more than 4300 digits. *)
Theorem response_program_bounds (status_code : Z) (text : str) (n : nat) :
  0 < n ->
  if (status_code =? 200)%Z
     && negb (headings_within_limit possible_separators text n)
  then weekly_program_of_response status_code text n = Raise ValueError
  else
    exists m, weekly_program_of_response status_code text n = Ok m /\
      1 <= size m <= n /\
      forall k c, m !! k = Some c -> c <> [] /\ lstrip c = c.
Proof.
  intros Hn. unfold weekly_program_of_response.
  destruct (status_code =? 200)%Z eqn:E; cbn [andb].
  - rewrite segment_outcome.
    destruct (headings_within_limit possible_separators text n);
      cbn [negb]; [|done].
    eexists. split; [done|]. split; [by apply trace_size|].
    intros k c Hkc. apply store_lookup_inv in Hkc as [Hkc|Hkc]; [|done].
    apply (trace_contents text n (k, c) Hkc).
  - destruct (error_program_facts n) as (Hsize & _ & Hc).
    eexists. split; [done|]. split; [lia|].
    intros k c Hkc. destruct (Hc k c Hkc) as (_ & Hne & Htr).
    split; [done|]. by apply trimmed_lstrip.
Qed.

Lemma response_program_bounds_witness :
  (exists m, weekly_program_of_response 200 (lit "no headings") 3 = Ok m /\
             1 <= size m <= 3) /\
  weekly_program_of_response 200 (lit "day " ++ repeat "7"%char 4301) 1
  = Raise ValueError.
Proof.
  split.
  - destruct (response_program_bounds 200 (lit "no headings") 3)
      as (m & Hm & Hsize & _); [lia|].
    by exists m.
  - pose proof (response_program_bounds 200
                  (lit "day " ++ repeat "7"%char 4301) 1) as H.
    assert (headings_within_limit possible_separators
              (lit "day " ++ repeat "7"%char 4301) 1 = false) as E
      by (vm_compute; reflexivity).
    rewrite E in H. apply H. lia.
Defined.
(** * Facts about Python values *)

Section DynFacts.
Import Dyn.

Lemma eqb_str_eq (s t : str) : eqb_str s t = true <-> s = t.
Proof.
  revert t. induction s as [|c s IH]; intros [|d t]; simpl; try done.
  rewrite andb_true_iff, Ascii.eqb_eq, IH. split.
  - by intros [-> ->].
  - by intros [= -> ->].
Qed.

Lemma eqb_str_refl (s : str) : eqb_str s s = true.
Proof. by apply eqb_str_eq. Qed.

Lemma eqb_str_neq (s t : str) : eqb_str s t = false <-> s <> t.
Proof.
  rewrite <- eqb_str_eq. symmetry. apply not_true_iff_false.
Qed.

Lemma startswith_app (s t : str) :
  startswith s t = true <-> exists b, s = t ++ b.
Proof.
  revert s. induction t as [|d t IH]; intros s; simpl.
  - split; [by exists s|by destruct s].
  - destruct s as [|c s]; simpl.
    + split; [done|]. by intros [b Hb].
    + rewrite andb_true_iff, Ascii.eqb_eq, IH. split.
      * intros [-> [b ->]]. by exists b.
      * intros [b [= -> ->]]. split; [done|]. by exists b.
Qed.

(** [t in s] holds exactly when [t] is a piece of [s]. *)
Lemma occurs_spec (t s : str) :
  occurs t s = true <-> exists a b, s = a ++ t ++ b.
Proof.
  induction s as [|c s IH].
  - change (occurs t []) with (startswith [] t || false).
    rewrite orb_false_r, startswith_app. split.
    + intros [b Hb]. by exists [], b.
    + intros (a & b & H). destruct a; [by exists b|done].
  - change (occurs t (c :: s)) with (startswith (c :: s) t || occurs t s).
    rewrite orb_true_iff, startswith_app, IH. split.
    + intros [[b Hb]|(a & b & Hab)].
      * by exists [], b.
      * exists (c :: a), b. by rewrite Hab.
    + intros (a & b & Hab). destruct a as [|x a].
      * left. by exists b.
      * right. injection Hab as -> ->. by exists a, b.
Qed.

Lemma dict_get_set_eq (items : list (str * value)) (k : str) (v : value) :
  dict_get (dict_set items k v) k = Some v.
Proof.
  induction items as [|[k' v'] items IH]; simpl.
  - by rewrite eqb_str_refl.
  - destruct (eqb_str k' k) eqn:E; simpl; by rewrite E.
Qed.

Lemma dict_get_set_ne (items : list (str * value)) (k k' : str)
    (v : value) :
  k' <> k -> dict_get (dict_set items k v) k' = dict_get items k'.
Proof.
  intros Hne.
  assert (eqb_str k k' = false) as Hkk by (apply eqb_str_neq; congruence).
  induction items as [|[k0 v0] items IH]; simpl.
  - by rewrite Hkk.
  - destruct (eqb_str k0 k) eqn:E; simpl; [|by rewrite IH].
    apply eqb_str_eq in E as ->. by rewrite Hkk.
Qed.

Lemma dict_set_set (items : list (str * value)) (k : str) (v v' : value) :
  dict_set (dict_set items k v) k v' = dict_set items k v'.
Proof.
  induction items as [|[k0 v0] items IH]; simpl.
  - by rewrite eqb_str_refl.
  - destruct (eqb_str k0 k) eqn:E; simpl; rewrite E; [done|].
    by rewrite IH.
Qed.

(** Assignments to two keys can be swapped when the one made first in
    the end replaces a value that was there. *)
Lemma dict_set_comm (items : list (str * value)) (k1 k2 : str)
    (v1 v2 : value) :
  k1 <> k2 -> dict_has items k2 = true ->
  dict_set (dict_set items k2 v2) k1 v1
  = dict_set (dict_set items k1 v1) k2 v2.
Proof.
  intros Hne. unfold dict_has.
  induction items as [|[k0 v0] items IH]; simpl; [done|].
  destruct (eqb_str k0 k2) eqn:E2.
  - intros _. apply eqb_str_eq in E2 as ->.
    assert (eqb_str k2 k1 = false) as E1 by (by apply eqb_str_neq).
    simpl. rewrite E1. simpl. by rewrite eqb_str_refl.
  - intros H. destruct (eqb_str k0 k1) eqn:E1; simpl; rewrite E1, E2.
    + done.
    + by rewrite IH.
Qed.

Lemma dict_has_set (items : list (str * value)) (k k' : str) (v : value) :
  dict_has (dict_set items k v) k'
  = eqb_str k k' || dict_has items k'.
Proof.
  unfold dict_has. destruct (eqb_str k k') eqn:E.
  - apply eqb_str_eq in E as <-. by rewrite dict_get_set_eq.
  - apply eqb_str_neq in E.
    by rewrite dict_get_set_ne by done.
Qed.


End DynFacts.

(** * [backend_integration.py] *)

Section BackendFacts.
Import Dyn BackendIntegration.

(** On a dict the loop reports the first of the fields, in the order of
    the list, that is not a key. *)
Lemma first_missing_object (fields : list str) (items : list (str * value)) :
  first_missing fields (Obj items)
  = Return (List.find (fun f => negb (dict_has items f)) fields).
Proof.
  induction fields as [|f fields IH]; simpl; [done|].
  unfold mbind, outcome_bind.
  by destruct (dict_has items f).
Qed.

Lemma first_missing_untyped (fields : list str) (data : value) :
  fields <> [] ->
  match data with
  | Null | Bool _ | Int _ | Float _ => True
  | _ => False
  end ->
  first_missing fields data = Throw TypeError.
Proof.
  intros Hne Hd. destruct fields as [|f fields]; [done|].
  by destruct data.
Qed.

Lemma first_missing_object_spec (fields : list str)
    (items : list (str * value)) :
  match List.find (fun f => negb (dict_has items f)) fields with
  | None => Forall (fun f => dict_has items f = true) fields
  | Some f =>
      exists before after,
        fields = before ++ f :: after /\
        Forall (fun g => dict_has items g = true) before /\
        dict_has items f = false
  end.
Proof.
  induction fields as [|f fields IH]; simpl; [done|].
  destruct (dict_has items f) eqn:E; simpl.
  - destruct (List.find _ fields) as [g|].
    + destruct IH as (before & after & -> & Hb & Hg).
      exists (f :: before), after. split; [done|]. split; [|done].
      by constructor.
    + by constructor.
  - exists [], fields. by split.
Qed.

End BackendFacts.

(** X3: [submit_program_feedback] on a JSON object.  The reply is 200,
    with the program id and the body echoed under 'feedback', when
    'day', 'rating' and 'difficulty' are all keys of the body, whatever
    their values; otherwise it is 400 and names the first of the three,
    in this order, that is not a key.  It is never the 500 reply. *)
Theorem feedback_object (program_id : str) (items : list (str * Dyn.value)) :
  let required := [lit "day"; lit "rating"; lit "difficulty"] in
  (Forall (fun f => Dyn.dict_has items f = true) required /\
   BackendIntegration.submit_program_feedback program_id (Dyn.Obj items)
   = BackendIntegration.Reply 200
       (Dyn.Obj
          [ (lit "status", Dyn.Str (lit "success"));
            (lit "message",
             Dyn.Str (lit "Feedback received and will be processed"));
            (lit "program_id", Dyn.Str program_id);
            (lit "feedback", Dyn.Obj items) ])) \/
  (exists field before after,
     required = before ++ field :: after /\
     Forall (fun g => Dyn.dict_has items g = true) before /\
     Dyn.dict_has items field = false /\
     BackendIntegration.submit_program_feedback program_id (Dyn.Obj items)
     = BackendIntegration.Reply 400
         (Dyn.Obj [(lit "error",
                    Dyn.Str (lit "Missing required field: " ++ field))])).
Proof.
  intros required.
  pose proof (first_missing_object_spec required items) as H.
  unfold BackendIntegration.submit_program_feedback.
  fold required. rewrite first_missing_object.
  destruct (List.find _ required) as [f|].
  - right. destruct H as (before & after & Hreq & Hb & Hf).
    by exists f, before, after.
  - by left.
Qed.

(** X4: a body that is [null], a boolean or a number makes both handlers
    answer with the 500 reply of their [except] branch, the membership
    test raising [TypeError]; it is not answered with 400. *)
Theorem untyped_body_fails (program_id : str) (data : Dyn.value) :
  match data with
  | Dyn.Null | Dyn.Bool _ | Dyn.Int _ | Dyn.Float _ =>
      BackendIntegration.submit_program_feedback program_id data
      = BackendIntegration.Failed (lit "Feedback submission failed: ")
          Dyn.TypeError /\
      BackendIntegration.generate_program_validation data
      = Some (BackendIntegration.Failed (lit "Program generation failed: ")
                Dyn.TypeError)
  | _ => True
  end.
Proof. by destruct data. Qed.

(** X5: the validation of [submit_program_feedback] does not ask for a
    JSON object: a body that is a string in which the words day, rating
    and difficulty occur is accepted with status 200 and echoed. *)
Theorem feedback_string_body (program_id s : str) :
  (exists a b, s = a ++ lit "day" ++ b) ->
  (exists a b, s = a ++ lit "rating" ++ b) ->
  (exists a b, s = a ++ lit "difficulty" ++ b) ->
  BackendIntegration.submit_program_feedback program_id (Dyn.Str s)
  = BackendIntegration.Reply 200
      (Dyn.Obj
         [ (lit "status", Dyn.Str (lit "success"));
           (lit "message",
            Dyn.Str (lit "Feedback received and will be processed"));
           (lit "program_id", Dyn.Str program_id);
           (lit "feedback", Dyn.Str s) ]).
Proof.
  intros H1 H2 H3. apply occurs_spec in H1, H2, H3.
  unfold BackendIntegration.submit_program_feedback.
  cbn [BackendIntegration.first_missing Dyn.contains].
  unfold mbind, Dyn.outcome_bind. by rewrite H1, H2, H3.
Qed.

Lemma feedback_string_body_witness :
  exists body,
    BackendIntegration.submit_program_feedback (lit "p1")
      (Dyn.Str (lit "no rating, no difficulty today"))
    = BackendIntegration.Reply 200 body.
Proof.
  eexists.
  apply (feedback_string_body (lit "p1")
           (lit "no rating, no difficulty today")).
  - by exists (lit "no rating, no difficulty to"), [].
  - by exists (lit "no "), (lit ", no difficulty today").
  - by exists (lit "no rating, no "), (lit " today").
Defined.

(** X6: the validation that opens [generate_program] of
    [backend_integration.py], on a JSON object.  It lets the request
    through exactly when the nine required fields are keys of the body;
    otherwise the reply is 400 and names the first required field, in
    the order of the list, that is not a key. *)
Theorem generate_program_missing_field (items : list (str * Dyn.value)) :
  let required := BackendIntegration.generate_program_required_fields in
  (Forall (fun f => Dyn.dict_has items f = true) required /\
   BackendIntegration.generate_program_validation (Dyn.Obj items) = None) \/
  (exists field before after,
     required = before ++ field :: after /\
     Forall (fun g => Dyn.dict_has items g = true) before /\
     Dyn.dict_has items field = false /\
     BackendIntegration.generate_program_validation (Dyn.Obj items)
     = Some (BackendIntegration.Reply 400
               (Dyn.Obj [(lit "error",
                          Dyn.Str (lit "Missing required field: "
                                   ++ field))]))).
Proof.
  intros required.
  pose proof (first_missing_object_spec required items) as H.
  unfold BackendIntegration.generate_program_validation.
  fold required. rewrite first_missing_object.
  destruct (List.find _ required) as [f|].
  - right. destruct H as (before & after & Hreq & Hb & Hf).
    by exists f, before, after.
  - by left.
Qed.
(** * [switch_model.py] *)

Section SwitchFacts.
Import Dyn SwitchModel.

Lemma available_model_shape (name : str) (model_config : value) :
  dict_get available_models name = Some model_config ->
  exists b t x, model_config = model b t x.
Proof.
  unfold available_models. cbn [dict_get].
  repeat (match goal with
          | |- context [eqb_str ?k name] =>
              destruct (eqb_str k name);
              [intros [= <-]; by eexists _, _, _|]
          end).
  done.
Qed.

Lemma model_fields (b : string) (t x : Z) :
  getitem (model b t x) (lit "base_model") = Return (Str (lit b)) /\
  getitem (model b t x) (lit "max_new_tokens") = Return (Int t) /\
  getitem (model b t x) (lit "temperature") = Return (Float x).
Proof. done. Qed.

Lemma update_config_object (items gc : list (str * value)) (b : string)
    (t x : Z) :
  dict_get items (lit "generation_config") = Some (Obj gc) ->
  update_config (Obj items) (model b t x)
  = Return
      (Obj (dict_set (dict_set items (lit "base_model") (Str (lit b)))
              (lit "generation_config")
              (Obj (dict_set
                      (dict_set gc (lit "max_new_tokens") (Int t))
                      (lit "temperature") (Float x))))).
Proof.
  intros Hgc. unfold update_config. destruct (model_fields b t x) as (-> & -> & ->).
  cbn [getitem setitem mbind outcome_bind].
  rewrite dict_get_set_ne by done. rewrite Hgc.
  cbn [getitem setitem mbind outcome_bind].
  rewrite dict_get_set_eq.
  cbn [getitem setitem mbind outcome_bind].
  by rewrite dict_set_set.
Qed.

Lemma update_config_fails (config : value) (b : string) (t x : Z) :
  (forall items gc, config = Obj items ->
     dict_get items (lit "generation_config") <> Some (Obj gc)) ->
  exists e, update_config config (model b t x) = Throw e /\
    match config with
    | Obj items =>
        match dict_get items (lit "generation_config") with
        | None => e = KeyError (lit "generation_config")
        | Some _ => e = TypeError
        end
    | _ => e = TypeError
    end.
Proof.
  intros Hbad. unfold update_config. destruct (model_fields b t x) as (-> & -> & ->).
  cbn [getitem setitem mbind outcome_bind].
  destruct config as [| | | | |elements|items];
    try (by exists TypeError).
  cbn [getitem setitem mbind outcome_bind].
  rewrite dict_get_set_ne by done.
  destruct (dict_get items (lit "generation_config")) as [v|] eqn:E.
  - exists TypeError. split; [|done].
    destruct v; try done. by destruct (Hbad items items0 eq_refl).
  - by eexists.
Qed.

Lemma switch_model_known (name : str) (b : string) (t x : Z)
    (items gc : list (str * value)) :
  dict_get available_models name = Some (model b t x) ->
  dict_get items (lit "generation_config") = Some (Obj gc) ->
  switch_model name (Json (Obj items))
  = (Return true,
     Json (Obj (dict_set (dict_set items (lit "base_model") (Str (lit b)))
                  (lit "generation_config")
                  (Obj (dict_set
                          (dict_set gc (lit "max_new_tokens") (Int t))
                          (lit "temperature") (Float x)))))).
Proof.
  intros Hname Hgc. unfold switch_model. cbn [load]. rewrite Hname.
  by rewrite (update_config_object items gc b t x Hgc).
Qed.


Lemma switch_model_cases (name : str) (f : SwitchModel.file) :
  (fst (SwitchModel.switch_model name f) = Dyn.Return true <->
   Dyn.dict_has SwitchModel.available_models name = true /\
   exists items gc,
     f = SwitchModel.Json (Dyn.Obj items) /\
     Dyn.dict_get items (lit "generation_config") = Some (Dyn.Obj gc)) /\
  (fst (SwitchModel.switch_model name f) <> Dyn.Return true ->
   snd (SwitchModel.switch_model name f) = f).
Proof.
  unfold SwitchModel.switch_model, Dyn.dict_has.
  destruct f as [| |config]; cbn [SwitchModel.load].
  - split; [|done]. split; [done|]. by intros (_ & ? & ? & ? & _).
  - split; [|done]. split; [done|]. by intros (_ & ? & ? & ? & _).
  - destruct (Dyn.dict_get SwitchModel.available_models name)
      as [model_config|] eqn:Hname.
    2: { split; [|done]. split; [done|]. by intros [? _]. }
    destruct (available_model_shape name model_config Hname)
      as (b & t & x & ->).
    destruct config as [| | | | |elements|items].
    1-6: (match goal with
          | |- context [SwitchModel.update_config ?c _] =>
              destruct (update_config_fails c b t x) as (e & -> & _);
              [by intros ? ? ?|]
          end;
          split; [|done]; split; [done|];
          by intros (_ & ? & ? & ? & _)).
    destruct (Dyn.dict_get items (lit "generation_config")) as [v|] eqn:Hgc.
    + destruct v as [| | | | |elements|gc].
      7: { rewrite (update_config_object items gc b t x Hgc). simpl.
           split; [|done]. split; [|done]. intros _. split; [done|].
           by exists items, gc. }
      all: (destruct (update_config_fails (Dyn.Obj items) b t x)
              as (e & -> & _);
            [intros ? ? [= <-]; by rewrite Hgc|];
            split; [|done]; split; [done|];
            intros (_ & ? & ? & [= <-] & H); by rewrite Hgc in H).
    + destruct (update_config_fails (Dyn.Obj items) b t x) as (e & -> & _).
      { intros ? ? [= <-]. by rewrite Hgc. }
      split; [|done]. split; [done|].
      intros (_ & ? & ? & [= <-] & H). by rewrite Hgc in H.
Qed.

End SwitchFacts.





(** X9: the last switch wins.  When switching to [a] and switching to
    [b] both succeed on a file, switching to [a] and then to [b] leaves
    the file that switching to [b] alone leaves; with [a] = [b], a
    switch made twice is a switch made once. *)
Theorem last_switch_wins (a b : str) (f : SwitchModel.file) :
  fst (SwitchModel.switch_model a f) = Dyn.Return true ->
  fst (SwitchModel.switch_model b f) = Dyn.Return true ->
  SwitchModel.switch_model b (snd (SwitchModel.switch_model a f))
  = SwitchModel.switch_model b f.
Proof.
  intros Ha Hb.
  assert (forall name,
            fst (SwitchModel.switch_model name f) = Dyn.Return true ->
            exists mb mt mx items gc,
              Dyn.dict_get SwitchModel.available_models name
              = Some (SwitchModel.model mb mt mx) /\
              f = SwitchModel.Json (Dyn.Obj items) /\
              Dyn.dict_get items (lit "generation_config")
              = Some (Dyn.Obj gc)) as Hshape.
  { intros name Hname.
    destruct (switch_model_cases name f) as [Hiff _].
    apply Hiff in Hname as (Hhas & items & gc & -> & Hgc).
    unfold Dyn.dict_has in Hhas.
    destruct (Dyn.dict_get SwitchModel.available_models name)
      as [mc|] eqn:E; [|done].
    destruct (available_model_shape name mc E) as (mb & mt & mx & ->).
    by exists mb, mt, mx, items, gc. }
  destruct (Hshape a Ha) as (ab & at_ & ax & items & gc & Hna & -> & Hgc).
  destruct (Hshape b Hb) as (bb & bt & bx & items' & gc' & Hnb & [= <-] & Hgc').
  rewrite Hgc in Hgc'. injection Hgc' as <-.
  rewrite (switch_model_known a ab at_ ax items gc Hna Hgc).
  cbn [snd].
  rewrite (switch_model_known b bb bt bx items gc Hnb Hgc).
  erewrite (switch_model_known b bb bt bx); [|done|apply dict_get_set_eq].
  do 3 f_equal.
  rewrite (dict_set_comm _ (lit "base_model") (lit "generation_config"));
    [|done|].
  2: { rewrite dict_has_set. unfold Dyn.dict_has. rewrite Hgc.
       by rewrite orb_true_r. }
  rewrite !dict_set_set. do 2 f_equal.
  rewrite <- (dict_set_comm _ (lit "temperature") (lit "max_new_tokens"));
    [|done|].
  2: { rewrite dict_has_set. by rewrite eqb_str_refl. }
  by rewrite !dict_set_set.
Qed.


Lemma last_switch_wins_witness :
  let f := SwitchModel.Json
             (Dyn.Obj [ (lit "base_model", Dyn.Str (lit "gpt2"));
                        (lit "generation_config", Dyn.Obj []) ]) in
  SwitchModel.switch_model (lit "phi2")
    (snd (SwitchModel.switch_model (lit "mistral-7b") f))
  = SwitchModel.switch_model (lit "phi2") f.
Proof.
  apply (last_switch_wins (lit "mistral-7b") (lit "phi2")); reflexivity.
Defined.


(** * [api_server.py] *)

Section ApiServerFacts.
Import Dyn ApiServer.
Context {S A : Type}.
Variable post : S -> A -> nat -> S * outcome Response.

Lemma for_days_dom (assessment : A) (days : list nat) (server server' : S)
    (wp wp' : gmap Z value) :
  for_days post assessment days server wp = (server', Return wp') ->
  dom wp' = list_to_set (Z.of_nat <$> days) ∪ dom wp.
Proof.
  revert server wp. induction days as [|day days IH]; intros server wp.
  - intros [= _ <-]. set_solver.
  - cbn [for_days]. rewrite fmap_cons, list_to_set_cons.
    destruct (post server assessment day) as [s1 [response|e]];
      [|intros ?; simplify_eq].
    destruct (status_code response =? 200)%Z.
    + destruct (session_result ← response_json response;
                getitem session_result (lit "session")) as [session|e];
        [|intros ?; simplify_eq].
      intros H. apply IH in H. rewrite H, dom_insert_L. set_solver.
    + intros H. apply IH in H. rewrite H, dom_insert_L. set_solver.
Qed.

Lemma for_days_refused (assessment : A) (days : list nat) (server : S)
    (wp : gmap Z value) :
  (forall s d, exists s' response,
     post s assessment d = (s', Return response) /\
     status_code response <> 200%Z) ->
  exists server',
    for_days post assessment days server wp
    = (server',
       Return (foldl (fun m d =>
                        <[Z.of_nat d :=
                            Str (lit "Error generating session for day "
                                 ++ str_of_int (Z.of_nat d))]> m) wp days)).
Proof.
  intros Hpost. revert server wp.
  induction days as [|day days IH]; intros server wp; [by eexists|].
  simpl. destruct (Hpost server day) as (s1 & response & -> & Hs).
  apply Z.eqb_neq in Hs as ->. apply IH.
Qed.

End ApiServerFacts.

Section ScriptFacts.
Import Dyn ApiServer.
Context {A : Type}.

Lemma for_days_scripted_step (assessment : A) (day : nat) (days : list nat)
    (r : outcome Response) (answers : list (outcome Response))
    (wp : gmap Z value) :
  for_days scripted assessment (day :: days) (r :: answers) wp
  = match entry day r with
    | Throw e => (answers, Throw e)
    | Return v =>
        for_days scripted assessment days answers (<[Z.of_nat day := v]> wp)
    end.
Proof.
  cbn [for_days scripted]. unfold entry.
  destruct r as [response|e]; [|done].
  cbn [mbind outcome_bind].
  destruct (status_code response =? 200)%Z; [|done].
  destruct (response_json response) as [v|e]; [|done].
  cbn [mbind outcome_bind].
  by destruct (getitem v (lit "session")).
Qed.

Lemma for_days_scripted (assessment : A) (len j : nat)
    (answers : list (outcome Response)) (wp : gmap Z value) :
  len <= length answers ->
  (forall i r, i < len -> answers !! i = Some r ->
     exists v, entry (j + i) r = Return v) ->
  exists wp',
    for_days scripted assessment (seq j len) answers wp
    = (drop len answers, Return wp') /\
    (forall i r v, i < len -> answers !! i = Some r ->
       entry (j + i) r = Return v -> wp' !! Z.of_nat (j + i) = Some v) /\
    (forall z, (z < Z.of_nat j)%Z -> wp' !! z = wp !! z).
Proof.
  revert j answers wp. induction len as [|len IH]; intros j answers wp Hlen Hok.
  - exists wp. split; [done|]. split; [|done]. intros i r v Hi. lia.
  - destruct answers as [|r answers]; [simpl in Hlen; lia|].
    cbn [seq]. rewrite for_days_scripted_step.
    destruct (Hok 0 r) as [v0 Hv0]; [lia|done|].
    rewrite Nat.add_0_r in Hv0. rewrite Hv0.
    destruct (IH (S j) answers (<[Z.of_nat j := v0]> wp)) as (wp' & Hrun & Hget & Hold).
    { simpl in Hlen. lia. }
    { intros i r' Hi Hr'. replace (S j + i) with (j + S i) by lia.
      apply (Hok (S i) r'); [lia|done]. }
    exists wp'. split; [done|]. split.
    + intros [|i] r' v Hi Hr' Hv.
      * simpl in Hr'. injection Hr' as <-. rewrite Nat.add_0_r in Hv |- *.
        rewrite Hv0 in Hv. injection Hv as <-.
        rewrite Hold by lia. apply lookup_insert_eq.
      * replace (j + S i) with (S j + i) in Hv |- * by lia.
        apply (Hget i r'); [lia|done|done].
    + intros z Hz. rewrite Hold by lia. apply lookup_insert_ne. lia.
Qed.

Lemma for_days_scripted_fails (assessment : A) (k len j : nat)
    (answers : list (outcome Response)) (wp : gmap Z value)
    (r : outcome Response) (e : exception) :
  k < len -> answers !! k = Some r -> entry (j + k) r = Throw e ->
  (forall i r', i < k -> answers !! i = Some r' ->
     exists v, entry (j + i) r' = Return v) ->
  for_days scripted assessment (seq j len) answers wp
  = (drop (S k) answers, Throw e).
Proof.
  revert len j answers wp. induction k as [|k IH];
    intros len j answers wp Hk Hr He Hok.
  - destruct answers as [|r0 answers]; [done|]. injection Hr as ->.
    destruct len as [|len]; [lia|]. cbn [seq].
    rewrite for_days_scripted_step. rewrite Nat.add_0_r in He.
    by rewrite He.
  - destruct answers as [|r0 answers]; [done|].
    destruct len as [|len]; [lia|]. cbn [seq].
    rewrite for_days_scripted_step.
    destruct (Hok 0 r0) as [v0 Hv0]; [lia|done|].
    rewrite Nat.add_0_r in Hv0. rewrite Hv0.
    apply IH.
    + lia.
    + done.
    + by replace (S j + k) with (j + S k) by lia.
    + intros i r' Hi Hr'. replace (S j + i) with (j + S i) by lia.
      apply (Hok (S i) r'); [lia|done].
Qed.

End ScriptFacts.

(** X11: whatever the model server does, a run of the loop of
    [generate_program] in [api_server.py] that comes to its end has
    filled exactly the days 1 to [training_days_per_week]: the program
    has that many entries and no other key. *)
Theorem api_program_days {S A : Type}
    (post : S -> A -> nat -> S * Dyn.outcome ApiServer.Response)
    (assessment : A) (n : nat) (server server' : S)
    (wp : gmap Z Dyn.value) :
  ApiServer.generate_days post assessment n server
  = (server', Dyn.Return wp) ->
  dom wp = list_to_set (Z.of_nat <$> seq 1 n) /\ size wp = n.
Proof.
  intros H. apply for_days_dom in H.
  assert (dom wp = list_to_set (Z.of_nat <$> seq 1 n)) as Hdom.
  { rewrite H. set_solver. }
  split; [done|].
  rewrite <- size_dom, Hdom, size_list_to_set by apply NoDup_days.
  by rewrite length_fmap, length_seq.
Qed.

Lemma api_program_days_witness :
  exists wp : gmap Z Dyn.value,
    ApiServer.generate_days (@ApiServer.scripted unit) tt 2
      [ Dyn.Return (ApiServer.mkResponse 500 None);
        Dyn.Return (ApiServer.mkResponse 200
                      (Some (Dyn.Obj [(lit "session", Dyn.Str (lit "rows"))])))
      ]
    = ([], Dyn.Return wp) /\ size wp = 2.
Proof.
  eexists. split; [reflexivity|].
  exact (proj2 (api_program_days (@ApiServer.scripted unit) tt 2
                  [ Dyn.Return (ApiServer.mkResponse 500 None);
                    Dyn.Return
                      (ApiServer.mkResponse 200
                         (Some (Dyn.Obj
                                  [(lit "session", Dyn.Str (lit "rows"))])))
                  ] [] _ eq_refl)).
Defined.

(** X12: a day that the model server refuses does not stop the loop.
    If every request is answered, with a status other than 200, the
    loop raises nothing and the program holds for each day d from 1 to
    [training_days_per_week] the text 'Error generating session for day
    <d>'. *)
Theorem api_all_days_refused {S A : Type}
    (post : S -> A -> nat -> S * Dyn.outcome ApiServer.Response)
    (assessment : A) (n : nat) (server : S) :
  (forall s d, exists s' response,
     post s assessment d = (s', Dyn.Return response) /\
     ApiServer.status_code response <> 200%Z) ->
  exists server' wp,
    ApiServer.generate_days post assessment n server
    = (server', Dyn.Return wp) /\
    forall d, 1 <= d <= n ->
      wp !! Z.of_nat d
      = Some (Dyn.Str (lit "Error generating session for day "
                       ++ str_of_int (Z.of_nat d))).
Proof.
  intros Hpost.
  destruct (for_days_refused post assessment (seq 1 n) server ∅ Hpost)
    as [server' Hrun].
  eexists server', _. split; [apply Hrun|].
  intros d Hd.
  assert (forall (days : list nat) (m : gmap Z Dyn.value),
            NoDup days -> d ∈ days ->
            foldl (fun m d =>
                     <[Z.of_nat d :=
                         Dyn.Str (lit "Error generating session for day "
                                  ++ str_of_int (Z.of_nat d))]> m) m days
            !! Z.of_nat d
            = Some (Dyn.Str (lit "Error generating session for day "
                             ++ str_of_int (Z.of_nat d)))) as Hfold.
  { intros days. induction days as [|x days IH] using rev_ind;
      intros m Hnd Hin; [by apply elem_of_nil in Hin|].
    rewrite foldl_app. simpl.
    apply NoDup_app in Hnd as (Hnd & Hx & _).
    apply elem_of_app in Hin as [Hin|Hin].
    - rewrite lookup_insert_ne; [by apply IH|].
      intros Heq. apply (Hx d Hin). apply Nat2Z.inj in Heq as ->. by left.
    - apply list_elem_of_singleton in Hin as ->. apply lookup_insert_eq. }
  apply Hfold; [apply NoDup_seq|]. apply elem_of_seq. lia.
Qed.

Lemma api_all_days_refused_witness :
  exists server' wp,
    ApiServer.generate_days
      (fun (s : nat) (_ : unit) (_ : nat) =>
         (S s, Dyn.Return (ApiServer.mkResponse 503 None))) tt 3 0
    = (server', Dyn.Return wp) /\
    wp !! 3%Z = Some (Dyn.Str (lit "Error generating session for day 3")).
Proof.
  destruct (api_all_days_refused
              (fun (s : nat) (_ : unit) (_ : nat) =>
                 (S s, Dyn.Return (ApiServer.mkResponse 503 None))) tt 3 0)
    as (server' & wp & Hrun & Hday).
  { intros s d. by eexists _, _. }
  exists server', wp. split; [done|]. apply (Hday 3). lia.
Defined.

(** X13: against a server that gives the answers of a list, one per
    request.  If the answers to the first [training_days_per_week]
    requests are all usable (a status other than 200, or status 200 with
    a JSON object that has the key 'session'), the loop uses up exactly
    that many answers and day d holds what the d-th answer gives.  If
    the k-th answer is the first that is not usable, the loop raises
    the exception of that answer after exactly k requests: no later day
    is asked for. *)
Theorem api_requests_in_day_order {A : Type} (assessment : A) (n : nat)
    (answers : list (Dyn.outcome ApiServer.Response)) :
  n <= length answers ->
  ((forall i r, i < n -> answers !! i = Some r ->
      exists v, ApiServer.entry (S i) r = Dyn.Return v) ->
   exists wp,
     ApiServer.generate_days ApiServer.scripted assessment n answers
     = (drop n answers, Dyn.Return wp) /\
     forall i r v, i < n -> answers !! i = Some r ->
       ApiServer.entry (S i) r = Dyn.Return v ->
       wp !! Z.of_nat (S i) = Some v) /\
  (forall k r e,
     k < n -> answers !! k = Some r ->
     ApiServer.entry (S k) r = Dyn.Throw e ->
     (forall i r', i < k -> answers !! i = Some r' ->
        exists v, ApiServer.entry (S i) r' = Dyn.Return v) ->
     ApiServer.generate_days ApiServer.scripted assessment n answers
     = (drop (S k) answers, Dyn.Throw e)).
Proof.
  intros Hlen. split.
  - intros Hok.
    destruct (for_days_scripted assessment n 1 answers ∅ Hlen Hok)
      as (wp & Hrun & Hget & _).
    exists wp. split; [done|]. apply Hget.
  - intros k r e Hk Hr He Hok.
    by apply (for_days_scripted_fails assessment k n 1 answers ∅ r e).
Qed.

Lemma api_requests_in_day_order_witness :
  ApiServer.generate_days ApiServer.scripted tt 3
    [ Dyn.Return (ApiServer.mkResponse 500 None);
      Dyn.Return (ApiServer.mkResponse 200 (Some (Dyn.Obj [])));
      Dyn.Return (ApiServer.mkResponse 200 None) ]
  = ([Dyn.Return (ApiServer.mkResponse 200 None)],
     Dyn.Throw (Dyn.KeyError (lit "session"))).
Proof.
  refine (proj2 (api_requests_in_day_order tt 3 _ _) 1 _ _ _ _ _ _).
  - simpl. lia.
  - lia.
  - reflexivity.
  - reflexivity.
  - intros i r' Hi Hr'. assert (i = 0) as -> by lia.
    injection Hr' as <-. by eexists.
Defined.
(** * More on the equal split *)

Section JoinFacts.

Lemma split_nonempty (s : str) : split LF s <> [].
Proof.
  destruct s as [|c s]; simpl; [done|].
  destruct (Ascii.eqb c LF); [done|]. by destruct (split LF s).
Qed.

Lemma join_cons (sep x : str) (l : list str) :
  l <> [] -> join sep (x :: l) = x ++ sep ++ join sep l.
Proof. by destruct l. Qed.

(** ['\n'.join(s.split('\n')) == s] *)
Lemma join_split (s : str) : join [LF] (split LF s) = s.
Proof.
  induction s as [|c s IH]; [done|]. cbn [split].
  destruct (Ascii.eqb c LF) eqn:E.
  - apply Ascii.eqb_eq in E as ->.
    rewrite join_cons by apply split_nonempty. by rewrite IH.
  - pose proof (split_nonempty s) as Hne.
    destruct (split LF s) as [|l ls]; [done|].
    destruct ls as [|l' ls].
    + simpl in *. by rewrite IH.
    + rewrite join_cons by done. rewrite join_cons in IH by done.
      by rewrite <- IH.
Qed.

Lemma join_app (sep : str) (l1 l2 : list str) :
  l1 <> [] -> l2 <> [] ->
  join sep (l1 ++ l2) = join sep l1 ++ sep ++ join sep l2.
Proof.
  intros H1 H2. induction l1 as [|x l1 IH]; [done|].
  destruct l1 as [|y l1].
  - simpl. by destruct l2.
  - change ((x :: y :: l1) ++ l2) with (x :: (y :: l1) ++ l2).
    rewrite !join_cons by done. rewrite IH by done.
    by rewrite <- !app_assoc.
Qed.

Lemma join_concat (sep : str) (groups : list (list str)) :
  Forall (fun g => g <> []) groups ->
  join sep (map (join sep) groups) = join sep (List.concat groups).
Proof.
  induction 1 as [|g groups Hg Hgs IH]; [done|].
  destruct groups as [|g' groups].
  - simpl. by rewrite app_nil_r.
  - cbn [map List.concat]. rewrite join_cons by done.
    cbn [map List.concat] in IH. rewrite IH.
    rewrite (join_app sep g (g' ++ List.concat groups)); [done|done|].
    apply Forall_cons in Hgs as [Hg' _]. by destruct g'.
Qed.

Lemma lines_of_day_nonempty (lines : list str) (n d : nat) :
  n <= length lines -> 1 <= d <= n -> lines_of_day lines n d <> [].
Proof.
  intros Hn Hd. unfold lines_of_day.
  assert (0 < n) as Hpos by lia.
  pose proof (Nat.Div0.mul_div_le (length lines) n) as Hle.
  assert (1 <= length lines / n) as Hq.
  { apply Nat.div_le_lower_bound; lia. }
  rewrite Nat.max_r by done.
  set (q := length lines / n) in *.
  assert ((d - 1) * q + q <= length lines) as Hroom.
  { assert ((d - 1) * q + q <= n * q) by nia. lia. }
  intros Hnil. apply (f_equal length) in Hnil.
  destruct (d =? n).
  - rewrite length_drop in Hnil. simpl in Hnil. lia.
  - rewrite length_take, length_drop in Hnil. simpl in Hnil. lia.
Qed.

End JoinFacts.

(** X14: the equal split loses no text when every day gets a line.  If
    no pattern qualifies and the stripped text has at least
    [training_days_per_week] lines, each day d from 1 to
    [training_days_per_week] holds its heading line 'Day <d>:', a newline
    and a body, and the bodies joined by newlines, in day order, are the
    text stripped of leading and trailing whitespace. *)
Theorem equal_split_round_trip (text : str) (n : nat) :
  select possible_separators text n = None ->
  n <= length (split LF (strip text)) ->
  exists m (bodies : list str),
    segment text n = Ok m /\ length bodies = n /\
    (forall d body, bodies !! d = Some body ->
       m !! Z.of_nat (S d) = Some (heading (S d) ++ [LF] ++ body)) /\
    join [LF] bodies = strip text.
Proof.
  intros E Hn. set (lines := split LF (strip text)) in *.
  eexists. exists (map (join [LF]) (map (lines_of_day lines n) (seq 1 n))).
  split; [by apply segment_split|]. split; [|split].
  - by rewrite !length_map, length_seq.
  - intros d body Hd. rewrite map_map in Hd.
    apply list_lookup_fmap_Some in Hd as (d' & -> & Hd').
    apply lookup_seq in Hd' as [-> Hd'].
    fold lines. rewrite split_assignments_lookup by lia. done.
  - rewrite join_concat.
    + rewrite lines_of_day_partition by (by eapply select_none_pos).
      apply join_split.
    + apply Forall_forall. intros g Hg.
      apply list_elem_of_fmap in Hg as (d & -> & Hd).
      apply elem_of_seq in Hd. apply lines_of_day_nonempty; [done|lia].
Qed.

Lemma equal_split_round_trip_witness :
  let text := lit " a" ++ [LF] ++ lit "b" ++ [LF] ++ lit "c " in
  exists m (bodies : list str),
    segment text 2 = Ok m /\ length bodies = 2 /\
    join [LF] bodies = lit "a" ++ [LF] ++ lit "b" ++ [LF] ++ lit "c".
Proof.
  destruct (equal_split_round_trip
              (lit " a" ++ [LF] ++ lit "b" ++ [LF] ++ lit "c ") 2)
    as (m & bodies & Hm & Hlen & _ & Hjoin).
  - reflexivity.
  - vm_compute. lia.
  - by exists m, bodies.
Defined.
(** * The bare pattern against the others *)

Section BareFacts.

Lemma digit_not_d (c : ascii) : isdecimal c = true -> not_d c.
Proof.
  unfold not_d.
  destruct c as [[] [] [] [] [] [] [] []]; vm_compute; congruence.
Qed.

(** What a pattern without d matches has no d. *)
Lemma match_here_avoids_d (q : list op) (s : str) (len : nat)
    (g : option str) :
  Forall avoids_d q -> match_here q s = Some (len, g) ->
  Forall not_d (take len s).
Proof.
  intros Hq. revert s len g.
  induction Hq as [|o q Ho _ IH]; intros s len g; simpl.
  - intros [= <- _]. by rewrite take_0.
  - destruct o; simpl in Ho.
    + destruct s as [|x s]; [done|].
      destruct (Ascii.eqb x c) eqn:E; [|done].
      destruct (match_here q s) as [[l g']|] eqn:Em; [|done].
      intros [= <- _]. simpl. constructor; [|by eapply IH].
      apply Ascii.eqb_eq in E as ->. done.
    + destruct s as [|x s]; [done|].
      destruct (Ascii.eqb (lower x) lo) eqn:E; [|done].
      destruct (match_here q s) as [[l g']|] eqn:Em; [|done].
      intros [= <- _]. simpl. constructor; [|by eapply IH].
      apply Ascii.eqb_eq in E. unfold not_d. by rewrite E.
    + destruct (backtrack (match_here q) s (digit_run s))
        as [[k l]|] eqn:E; [|done].
      intros [= <- _]. apply backtrack_inv in E as [Hk [g' Hg']].
      rewrite <- take_take_drop. apply Forall_app. split.
      * destruct (digit_run_take s k) as [_ Hdig]; [lia|].
        eapply Forall_impl; [apply Hdig|]. apply digit_not_d.
      * by eapply IH.
Qed.

(** A match of a heading pattern whose only d is the first letter. *)
Lemma match_here_one_d (r : list op) (s : str) (len : nat) (g : option str) :
  Forall avoids_d r ->
  match_here (LITERAL_IGNORE "d" :: r) s = Some (len, g) ->
  exists x s' len',
    s = x :: s' /\ lower x = "d"%char /\ len = S len' /\
    Forall not_d (take len' s').
Proof.
  intros Hr. simpl. destruct s as [|x s]; [done|].
  destruct (Ascii.eqb (lower x) "d") eqn:E; [|done].
  destruct (match_here r s) as [[l g']|] eqn:Em; [|done].
  intros [= <- _]. apply Ascii.eqb_eq in E.
  exists x, s, l. repeat split; try done.
  by eapply match_here_avoids_d.
Qed.

Lemma backtrack_mono {G1 G2} (r1 : str -> option (nat * G1))
    (r2 : str -> option (nat * G2)) (s : str) (k : nat) :
  (forall s', is_Some (r1 s') -> is_Some (r2 s')) ->
  is_Some (backtrack r1 s k) -> is_Some (backtrack r2 s k).
Proof.
  intros Hr. induction k as [|k IH]; simpl; [done|].
  destruct (r2 (drop (S k) s)) as [[l2 g2]|] eqn:E2; [by eexists|].
  destruct (r1 (drop (S k) s)) as [[l1 g1]|] eqn:E1; [|done].
  intros _. destruct (Hr (drop (S k) s)) as [? H]; [by rewrite E1|].
  by rewrite E2 in H.
Qed.

(** Where a pattern with more after the digits matches, the pattern that
    ends with the digits matches. *)
Lemma match_here_shorter (pre q : list op) (s : str) :
  is_Some (match_here (pre ++ REPEAT_DIGITS_GROUP :: q) s) ->
  is_Some (match_here (pre ++ [REPEAT_DIGITS_GROUP]) s).
Proof.
  revert s. induction pre as [|o pre IH]; intros s.
  - cbn [app match_here].
    destruct (backtrack (match_here q) s (digit_run s))
      as [[k l]|] eqn:E; [|by intros [? ?]].
    intros _. apply backtrack_inv in E as [Hk _].
    destruct (digit_run s) as [|k']; [lia|]. simpl. by eexists.
  - cbn [app match_here]. destruct o.
    + destruct s as [|x s]; [done|].
      destruct (Ascii.eqb x c); [|done].
      destruct (match_here (pre ++ REPEAT_DIGITS_GROUP :: q) s)
        as [[l g]|] eqn:E; [|by intros [? ?]].
      intros _. destruct (IH s) as [[l' g'] ->]; [by rewrite E|].
      by eexists.
    + destruct s as [|x s]; [done|].
      destruct (Ascii.eqb (lower x) lo); [|done].
      destruct (match_here (pre ++ REPEAT_DIGITS_GROUP :: q) s)
        as [[l g]|] eqn:E; [|by intros [? ?]].
      intros _. destruct (IH s) as [[l' g'] ->]; [by rewrite E|].
      by eexists.
    + intros H.
      assert (is_Some (backtrack
                         (match_here (pre ++ REPEAT_DIGITS_GROUP :: q))
                         s (digit_run s))) as Hb.
      { destruct (backtrack _ s (digit_run s)) as [[k l]|];
          [by eexists|by destruct H]. }
      apply (backtrack_mono _ (match_here (pre ++ [REPEAT_DIGITS_GROUP])))
        in Hb; [|done].
      destruct Hb as [[k l] ->]. by eexists.
Qed.

Section Count.

Variables P Q : list op.
Hypothesis HQP : forall s, is_Some (match_here Q s) -> is_Some (match_here P s).
Hypothesis HP : forall s len g, match_here P s = Some (len, g) ->
  exists x s' len', s = x :: s' /\ lower x = "d"%char /\ len = S len' /\
                    Forall not_d (take len' s').
Hypothesis HQ : forall s len g, match_here Q s = Some (len, g) ->
  exists x s' len', s = x :: s' /\ lower x = "d"%char /\ len = S len' /\
                    Forall not_d (take len' s').

(** The scan with [P] finds at least as many matches as the scan with
    [Q], also when both are inside a match that has no further d. *)
Lemma scan_count_le (s : str) (posP posQ skipP skipQ : nat) :
  Forall not_d (take (Nat.max skipP skipQ) s) ->
  length (scan Q posQ skipQ s) <= length (scan P posP skipP s).
Proof.
  revert posP posQ skipP skipQ.
  induction s as [|x s IH]; intros posP posQ skipP skipQ Hreg.
  - destruct skipQ; simpl; [|lia].
    destruct (match_here Q []) as [[l g]|] eqn:E; [|simpl; lia].
    by destruct (HQ _ _ _ E) as (? & ? & ? & ? & _).
  - destruct skipQ as [|kq], skipP as [|kp]; cbn [scan].
    + destruct (match_here Q (x :: s)) as [[lq gq]|] eqn:EQ.
      * destruct (HQP (x :: s)) as [[lp gp] EP]; [by rewrite EQ|].
        rewrite EP.
        destruct (HQ _ _ _ EQ) as (? & ? & lq' & [= <- <-] & _ & -> & Hq).
        destruct (HP _ _ _ EP) as (? & ? & lp' & [= <- <-] & _ & -> & Hp).
        simpl. apply le_n_S. apply IH.
        by destruct (Nat.max_spec lp' lq') as [[_ ->]|[_ ->]].
      * destruct (match_here P (x :: s)) as [[lp gp]|] eqn:EP.
        -- destruct (HP _ _ _ EP) as (? & ? & lp' & [= <- <-] & _ & -> & Hp).
           simpl. apply Nat.le_le_succ_r. apply IH.
           by rewrite Nat.max_0_r.
        -- apply IH. by rewrite take_0.
    + simpl in Hreg. apply Forall_cons in Hreg as [Hx Hreg].
      destruct (match_here Q (x :: s)) as [[lq gq]|] eqn:EQ.
      * by destruct (HQ _ _ _ EQ) as (? & ? & ? & [= <- <-] & Hd & _).
      * apply IH. by rewrite Nat.max_0_r.
    + simpl in Hreg. apply Forall_cons in Hreg as [Hx Hreg].
      destruct (match_here P (x :: s)) as [[lp gp]|] eqn:EP.
      * by destruct (HP _ _ _ EP) as (? & ? & ? & [= <- <-] & Hd & _).
      * by apply IH.
    + simpl in Hreg. apply Forall_cons in Hreg as [Hx Hreg].
      by apply IH.
Qed.

End Count.

Lemma compiled_bare :
  compile true bare_separator
  = LITERAL_IGNORE "d"
    :: ([LITERAL_IGNORE "a"; LITERAL_IGNORE "y"; LITERAL_IGNORE " "]
        ++ [REPEAT_DIGITS_GROUP]).
Proof. reflexivity. Qed.

Lemma bare_extended_count (separator : regex) (text : str) :
  extends_bare (compile true separator) ->
  length (finditer true separator text)
  <= length (finditer true bare_separator text).
Proof.
  intros (q & Hq & Hd). unfold finditer. rewrite Hq.
  apply scan_count_le.
  - intros s. rewrite compiled_bare.
    change ((LITERAL_IGNORE "d"
             :: [LITERAL_IGNORE "a"; LITERAL_IGNORE "y"; LITERAL_IGNORE " "]
                ++ [REPEAT_DIGITS_GROUP]) ++ q)
      with ([LITERAL_IGNORE "d"; LITERAL_IGNORE "a"; LITERAL_IGNORE "y";
             LITERAL_IGNORE " "] ++ REPEAT_DIGITS_GROUP :: q).
    apply match_here_shorter.
  - intros s len g. rewrite compiled_bare. apply match_here_one_d.
    repeat constructor; done.
  - intros s len g. rewrite compiled_bare.
    change ((LITERAL_IGNORE "d"
             :: [LITERAL_IGNORE "a"; LITERAL_IGNORE "y"; LITERAL_IGNORE " "]
                ++ [REPEAT_DIGITS_GROUP]) ++ q)
      with (LITERAL_IGNORE "d"
            :: ([LITERAL_IGNORE "a"; LITERAL_IGNORE "y"; LITERAL_IGNORE " ";
                 REPEAT_DIGITS_GROUP] ++ q)).
    apply match_here_one_d. apply Forall_app. split; [|done].
    repeat constructor; done.
  - by rewrite take_0.
Qed.

Lemma possible_separators_extend_bare :
  Forall (fun separator => extends_bare (compile true separator))
    possible_separators.
Proof.
  unfold possible_separators.
  repeat (apply List.Forall_cons;
          [eexists; split; [vm_compute; reflexivity|];
           repeat constructor; vm_compute; congruence|]).
  apply List.Forall_nil.
Qed.

End BareFacts.

(** X15: the bare pattern 'Day <N>' finds at least as many matches as
    each of the five patterns, so the equal split is reached exactly
    when the text has fewer than [training_days_per_week] headings
    'Day <N>', in any case, counted from left to right without
    overlap. *)
Theorem equal_split_iff_few_headings (text : str) (n : nat) :
  Forall (fun separator =>
            length (finditer true separator text)
            <= length (finditer true bare_separator text))
    possible_separators /\
  (select possible_separators text n = None <->
   length (finditer true bare_separator text) < n).
Proof.
  assert (Forall (fun separator =>
                    length (finditer true separator text)
                    <= length (finditer true bare_separator text))
            possible_separators) as Hle.
  { eapply Forall_impl; [apply possible_separators_extend_bare|].
    intros separator. apply bare_extended_count. }
  split; [done|]. split.
  - intros E.
    assert (List.find (qualifies text n) possible_separators = None) as E'
      by done.
    pose proof (find_none _ _ E' bare_separator) as Hq.
    unfold qualifies in Hq. apply Nat.leb_gt. apply Hq.
    unfold possible_separators, bare_separator. simpl. tauto.
  - intros Hlt.
    destruct (select possible_separators text n) as [separator|] eqn:E;
      [|done].
    apply select_some in E as [Hin Hn].
    apply list_elem_of_In in Hin.
    eapply Forall_forall in Hle; [|apply Hin]. simpl in Hle. lia.
Qed.

Lemma equal_split_iff_few_headings_witness :
  select possible_separators (lit "day 1 pull, DAY 2 push") 3 = None.
Proof.
  apply (proj2 (equal_split_iff_few_headings
                  (lit "day 1 pull, DAY 2 push") 3)).
  vm_compute. lia.
Defined.
(** * The number a content starts with *)

Section DecimalFacts.

Lemma uint_digits (u : Decimal.uint) :
  Forall (fun c => isdecimal c = true) (lit (NilEmpty.string_of_uint u)).
Proof. induction u; simpl; by constructor. Qed.

Lemma decimal_fold_acc (u : Decimal.uint) (p : positive) :
  foldl (fun a c => (10 * a + digit_value c)%Z) (Z.pos p)
    (lit (NilEmpty.string_of_uint u))
  = Z.pos (Pos.of_uint_acc u p).
Proof.
  revert p. induction u; intros p; cbn [NilEmpty.string_of_uint lit
    list_ascii_of_string foldl Pos.of_uint_acc]; [done|..];
    (etransitivity; [|apply IHu]); f_equal; vm_compute digit_value; lia.
Qed.

Lemma decimal_fold_uint (u : Decimal.uint) :
  decimal_value (lit (NilEmpty.string_of_uint u)) = Z.of_N (Pos.of_uint u).
Proof.
  unfold decimal_value. induction u;
    cbn [NilEmpty.string_of_uint lit list_ascii_of_string foldl Pos.of_uint];
    [done|done|..]; apply (decimal_fold_acc u).
Qed.

(** [int(str(d)) == d] for a day number [d]; [str(d)] is a non-empty
    string of digits. *)
Lemma str_of_int_value (d : nat) :
  decimal_value (str_of_int (Z.of_nat d)) = Z.of_nat d /\
  str_of_int (Z.of_nat d) <> [] /\
  Forall (fun c => isdecimal c = true) (str_of_int (Z.of_nat d)).
Proof.
  unfold str_of_int. destruct (Z.of_nat d) as [|p|p] eqn:E; [| |lia].
  - repeat split; try done. repeat constructor.
  - cbn [Z.to_int NilZero.string_of_int NilZero.string_of_uint].
    pose proof (Unsigned.to_uint_nonnil p) as Hnil.
    assert (NilZero.string_of_uint (Pos.to_uint p)
            = NilEmpty.string_of_uint (Pos.to_uint p)) as ->.
    { by destruct (Pos.to_uint p). }
    split; [|split].
    + by rewrite decimal_fold_uint, Unsigned.of_to.
    + by destruct (Pos.to_uint p).
    + apply uint_digits.
Qed.

Lemma digit_run_app (a b : str) :
  Forall (fun c => isdecimal c = true) a -> digit_run b = 0 ->
  digit_run (a ++ b) = length a.
Proof.
  intros Ha Hb. induction Ha as [|c a Hc _ IH]; simpl; [done|].
  by rewrite Hc, IH.
Qed.

End DecimalFacts.

Section HeadFacts.

Lemma lower_blank (x : ascii) : lower x = " "%char -> x = " "%char.
Proof.
  destruct x as [[] [] [] [] [] [] [] []]; vm_compute; congruence.
Qed.

Lemma digit_lower (x : ascii) : isdecimal x = true -> lower x = x.
Proof.
  destruct x as [[] [] [] [] [] [] [] []]; vm_compute; congruence.
Qed.

Lemma digit_nonspace (x : ascii) : isdecimal x = true -> isspace x = false.
Proof.
  destruct x as [[] [] [] [] [] [] [] []]; vm_compute; congruence.
Qed.

Lemma digit_run_drop (s : str) (k : nat) :
  k < digit_run s -> 0 < digit_run (drop k s).
Proof.
  revert k. induction s as [|c s IH]; intros k; simpl; [lia|].
  destruct (isdecimal c) eqn:E; [|lia].
  destruct k as [|k]; simpl; [rewrite E; lia|].
  intros Hk. apply IH. lia.
Qed.

Lemma digit_run_end (s : str) : digit_run (drop (digit_run s) s) = 0.
Proof.
  induction s as [|c s IH]; simpl; [done|].
  destruct (isdecimal c) eqn:E; simpl; [done|]. by rewrite E.
Qed.

Lemma digit_run_prefix (a b : str) : digit_run (a ++ b) = 0 -> digit_run a = 0.
Proof.
  destruct a as [|c a]; simpl; [done|]. by destruct (isdecimal c).
Qed.

(** The repetition keeps the longest run of digits when the rest of the
    pattern matches everywhere, or nowhere at a digit. *)
Lemma backtrack_longest {G} (rest : str -> option (nat * G)) (s : str)
    (k l : nat) :
  (forall s', is_Some (rest s')) \/
  (forall s', is_Some (rest s') -> digit_run s' = 0) ->
  backtrack rest s (digit_run s) = Some (k, l) -> k = digit_run s.
Proof.
  intros [Hall|Hno] H.
  - destruct (digit_run s) as [|k0]; [done|]. simpl in H.
    destruct (Hall (drop (S k0) s)) as [[l0 g0] E]. rewrite E in H.
    by injection H as <- _.
  - apply backtrack_inv in H as [Hk [g Hg]].
    destruct (decide (k < digit_run s)) as [Hlt|]; [|lia].
    apply digit_run_drop in Hlt.
    rewrite (Hno (drop k s)) in Hlt; [lia|by eexists].
Qed.

Lemma literal_not_digit (lo : ascii) (s : str) :
  isdecimal lo = false ->
  is_Some (match_here [LITERAL_IGNORE lo] s) -> digit_run s = 0.
Proof.
  intros Hlo. simpl. destruct s as [|x s]; [done|].
  destruct (Ascii.eqb (lower x) lo) eqn:E; [|by intros [? ?]].
  intros _. apply Ascii.eqb_eq in E. simpl.
  destruct (isdecimal x) eqn:Hx; [|done].
  rewrite (digit_lower x Hx) in E. congruence.
Qed.

(** The shape of a match of a pattern that continues the bare one. *)
Lemma heading_match_shape (q : list op) (t : str) (len : nat)
    (g : option str) :
  (forall s', is_Some (match_here q s')) \/
  (forall s', is_Some (match_here q s') -> digit_run s' = 0) ->
  match_here (compile true bare_separator ++ q) t = Some (len, g) ->
  exists x1 x2 x3 t4 l,
    t = x1 :: x2 :: x3 :: " "%char :: t4 /\
    lower x1 = "d"%char /\ lower x2 = "a"%char /\ lower x3 = "y"%char /\
    1 <= digit_run t4 /\ g = Some (take (digit_run t4) t4) /\
    len = 4 + digit_run t4 + l.
Proof.
  intros Hq. rewrite compiled_bare.
  cbn [app match_here].
  destruct t as [|x1 [|x2 [|x3 [|x4 t4]]]]; try done.
  - by destruct (Ascii.eqb (lower x1) "d").
  - by destruct (Ascii.eqb (lower x1) "d"), (Ascii.eqb (lower x2) "a").
  - by destruct (Ascii.eqb (lower x1) "d"), (Ascii.eqb (lower x2) "a"),
      (Ascii.eqb (lower x3) "y").
  - destruct (Ascii.eqb (lower x1) "d") eqn:E1; [|done].
    destruct (Ascii.eqb (lower x2) "a") eqn:E2; [|done].
    destruct (Ascii.eqb (lower x3) "y") eqn:E3; [|done].
    destruct (Ascii.eqb (lower x4) " ") eqn:E4; [|done].
    destruct (backtrack (match_here q) t4 (digit_run t4))
      as [[k l]|] eqn:E; [|done].
    intros [= <- <-].
    pose proof (backtrack_longest _ _ _ _ Hq E) as ->.
    apply backtrack_inv in E as [Hk _].
    apply Ascii.eqb_eq in E1, E2, E3, E4. apply lower_blank in E4 as ->.
    exists x1, x2, x3, t4, l. repeat split; try done; lia.
Qed.

Lemma possible_separators_shape :
  Forall (fun separator =>
            exists q,
              compile true separator = compile true bare_separator ++ q /\
              ((forall s', is_Some (match_here q s')) \/
               (forall s', is_Some (match_here q s') -> digit_run s' = 0)))
    possible_separators.
Proof.
  unfold possible_separators.
  apply List.Forall_cons.
  { exists [LITERAL_IGNORE ":"]. split; [reflexivity|]. right.
    intros s'. by apply literal_not_digit. }
  apply List.Forall_cons.
  { exists [LITERAL_IGNORE LF]. split; [reflexivity|]. right.
    intros s'. by apply literal_not_digit. }
  apply List.Forall_cons.
  { exists []. split; [reflexivity|]. left. intros s'. by eexists. }
  apply List.Forall_cons.
  { exists [LITERAL_IGNORE ":"]. split; [reflexivity|]. right.
    intros s'. by apply literal_not_digit. }
  apply List.Forall_cons.
  { exists []. split; [reflexivity|]. left. intros s'. by eexists. }
  apply List.Forall_nil.
Qed.

Lemma lstrip_app_suffix (u w : str) (c : ascii) :
  isspace c = false ->
  exists u0 v, u = u0 ++ v /\ lstrip (u ++ c :: w) = v ++ c :: w.
Proof.
  intros E. induction u as [|x u IH]; simpl.
  - rewrite E. by exists [], [].
  - destruct (isspace x).
    + destruct IH as (u0 & v & -> & ->). by exists (x :: u0), v.
    + by exists [], (x :: u).
Qed.

(** Stripping keeps everything up to a character that is not
    whitespace. *)
Lemma rstrip_keeps (a r : str) (e : ascii) :
  isspace e = false ->
  exists r' r0, r = r' ++ r0 /\ rstrip ((a ++ [e]) ++ r) = (a ++ [e]) ++ r'.
Proof.
  intros He. unfold rstrip.
  rewrite !rev_app_distr. change (rev [e] ++ rev a) with (e :: rev a).
  destruct (lstrip_app_suffix (rev r) (rev a) e He) as (u0 & v & Hr & ->).
  exists (rev v), (rev u0). split.
  - rewrite <- rev_app_distr, <- Hr. by rewrite rev_involutive.
  - rewrite rev_app_distr. simpl. rewrite rev_involutive.
    by rewrite <- !app_assoc.
Qed.

(** Two matches that follow each other do not overlap. *)
Lemma scan_apart (p : list op) (s : str) (pos skip i : nat) (m m' : Match) :
  scan p pos skip s !! i = Some m -> scan p pos skip s !! S i = Some m' ->
  m_start m < m_end m -> m_end m <= m_start m'.
Proof.
  revert pos skip i. induction s as [|x s IH]; intros pos skip i.
  - destruct skip; simpl; [|done].
    destruct (match_here p []) as [[len g]|]; [|done].
    by destruct i.
  - destruct skip; simpl.
    + destruct (match_here p (x :: s)) as [[len g]|].
      * destruct i as [|i]; simpl.
        -- intros [= <-] Hm'. simpl. intros Hlen.
           apply list_elem_of_lookup_2, list_elem_of_In,
             scan_lower_bound in Hm'. lia.
        -- apply IH.
      * apply IH.
    + apply IH.
Qed.

End HeadFacts.

Section LeadingDay.

Lemma leading_day_digits (x1 x2 x3 : ascii) (digits rest : str) :
  lower x1 = "d"%char -> lower x2 = "a"%char -> lower x3 = "y"%char ->
  digits <> [] -> Forall (fun c => isdecimal c = true) digits ->
  digit_run rest = 0 ->
  leading_day (x1 :: x2 :: x3 :: " "%char :: digits ++ rest)
  = Some (decimal_value digits).
Proof.
  intros H1 H2 H3 Hne Hdig Hrest. unfold leading_day.
  rewrite H1, H2, H3. cbn [Ascii.eqb Bool.eqb andb].
  rewrite (digit_run_app digits rest Hdig Hrest).
  destruct digits as [|c digits]; [done|].
  cbn [length]. by rewrite <- (length_cons c digits), take_app_length.
Qed.

Lemma leading_day_span (separator : regex) (text : str) (i : nat)
    (m : Match) :
  In separator possible_separators ->
  finditer true separator text !! i = Some m ->
  leading_day (span text (finditer true separator text) i m)
  = Some (day_number m).
Proof.
  intros Hin Hm.
  pose proof possible_separators_shape as Hshape.
  apply List.Forall_forall with (x := separator) in Hshape; [|done].
  destruct Hshape as (q & Hcomp & Hq).
  assert (In m (finditer true separator text)) as Hin'.
  { apply list_elem_of_In. by eapply list_elem_of_lookup_2. }
  apply (scan_valid _ text) in Hin' as (len & Hlen & Hend); [|done].
  rewrite Hcomp in Hlen.
  pose proof (match_here_length _ _ _ _ Hlen) as Hroom.
  rewrite length_drop in Hroom.
  destruct (heading_match_shape q _ len _ Hq Hlen)
    as (x1 & x2 & x3 & t4 & l & Ht & H1 & H2 & H3 & Hk & Hg & ->).
  set (k := digit_run t4) in *.
  assert (m_start m + (4 + k + l)
          <= span_end text (finditer true separator text) i) as Hspan.
  { unfold span_end. replace (i + 1) with (S i) by lia.
    destruct (finditer true separator text !! S i) as [m'|] eqn:E.
    - rewrite <- Hend. eapply scan_apart; [apply Hm|apply E|lia].
    - lia. }
  unfold span, slice. rewrite Ht.
  destruct (span_end text (finditer true separator text) i - m_start m)
    as [|[|[|[|rest_len]]]] eqn:Ediff; try lia.
  cbn [take].
  assert (k <= rest_len) as Hkr by lia.
  replace rest_len with (k + (rest_len - k)) by lia.
  rewrite <- take_take_drop.
  destruct (digit_run_take t4 k) as [Hdlen Hdig]; [done|].
  set (digits := take k t4) in *.
  set (r := take (rest_len - k) (drop k t4)).
  assert (digits <> []) as Hne.
  { intros Hnil. rewrite Hnil in Hdlen. simpl in Hdlen. lia. }
  destruct (exists_last Hne) as (d0 & e & Hlast).
  assert (isdecimal e = true) as He.
  { rewrite Hlast in Hdig. apply Forall_app in Hdig as [_ Hdig].
    by apply Forall_cons in Hdig as [? _]. }
  unfold strip.
  rewrite (lstrip_fixed x1 _ (lower_d_nonspace x1 H1)).
  destruct (rstrip_keeps ([x1; x2; x3; " "%char] ++ d0) r e
              (digit_nonspace e He)) as (r' & r0 & Hr & Hstrip).
  assert (x1 :: x2 :: x3 :: " "%char :: digits ++ r
          = (([x1; x2; x3; " "%char] ++ d0) ++ [e]) ++ r) as ->.
  { rewrite Hlast. by rewrite <- !app_assoc. }
  rewrite Hstrip.
  assert ((([x1; x2; x3; " "%char] ++ d0) ++ [e]) ++ r'
          = x1 :: x2 :: x3 :: " "%char :: digits ++ r') as ->.
  { rewrite Hlast. by rewrite <- !app_assoc. }
  rewrite leading_day_digits; try done.
  - unfold day_number. by rewrite Hg.
  - apply (digit_run_prefix r' (r0 ++ drop (rest_len - k) (drop k t4))).
    rewrite app_assoc, <- Hr. unfold r. rewrite take_drop.
    apply digit_run_end.
Qed.

Lemma leading_day_heading (d : nat) (rest : str) :
  digit_run rest = 0 ->
  leading_day (lit "Day " ++ str_of_int (Z.of_nat d) ++ rest)
  = Some (Z.of_nat d).
Proof.
  intros Hrest. destruct (str_of_int_value d) as (Hval & Hne & Hdig).
  change (lit "Day " ++ str_of_int (Z.of_nat d) ++ rest)
    with ("D"%char :: "a"%char :: "y"%char :: " "%char
          :: str_of_int (Z.of_nat d) ++ rest).
  rewrite leading_day_digits; try done. by rewrite Hval.
Qed.

End LeadingDay.

(** X16: in every program the handler builds, by a heading pattern, by
    the equal split, or as the error program of a refused request, the
    key of an entry is the number its content starts with: the content
    starts with the letters d, a, y in either case, a blank and a run of
    digits, and the value of the longest such run is the key.  The
    handler builds a program unless the status is 200 and a taken
    heading of the text has more than 4300 digits, where it raises
    [ValueError]. *)
Theorem key_is_leading_day (status_code : Z) (text : str) (n : nat) :
  if (status_code =? 200)%Z
     && negb (headings_within_limit possible_separators text n)
  then weekly_program_of_response status_code text n = Raise ValueError
  else
    exists m, weekly_program_of_response status_code text n = Ok m /\
      forall k c, m !! k = Some c -> leading_day c = Some k.
Proof.
  unfold weekly_program_of_response.
  destruct (status_code =? 200)%Z; cbn [andb].
  - rewrite segment_outcome.
    destruct (headings_within_limit possible_separators text n);
      cbn [negb]; [|done].
    eexists. split; [done|].
    intros k c Hkc. apply store_lookup_inv in Hkc as [Hkc|Hkc]; [|done].
    revert Hkc. unfold trace.
    destruct (select possible_separators text n) as [separator|] eqn:E.
    + intros Hkc.
      apply assignments_elem in Hkc as (i & m & _ & Hm & [= -> ->]).
      apply select_some in E as [Hin _]. by apply leading_day_span.
    + intros Hkc.
      apply split_assignments_elem in Hkc as (d & _ & [= -> ->]).
      unfold day_text, heading. rewrite <- !app_assoc.
      by apply leading_day_heading.
  - eexists. split; [done|].
    intros k c Hkc. unfold error_program in Hkc.
    rewrite error_program_store in Hkc.
    apply store_lookup_inv in Hkc as [Hkc|Hkc]; [|done].
    apply list_elem_of_fmap in Hkc as (d & [= -> ->] & _).
    unfold error_text. by apply leading_day_heading.
Qed.

Lemma key_is_leading_day_witness :
  exists m, weekly_program_of_response 200 (lit "DAY 07: rest") 1 = Ok m /\
    m !! 7%Z = Some (lit "DAY 07: rest") /\
    leading_day (lit "DAY 07: rest") = Some 7%Z.
Proof.
  destruct (key_is_leading_day 200 (lit "DAY 07: rest") 1) as (m & Hm & H).
  exists m. split; [done|].
  assert (m !! 7%Z = Some (lit "DAY 07: rest")) as Hm7.
  { vm_compute in Hm. injection Hm as <-. vm_compute. reflexivity. }
  split; [done|]. by apply H.
Defined.
